(** * Primed Listening: the content script's pause/resume machine

    A shallow embedding of [content.js] (the current content script) and of
    the earlier variant of the same script that has no pause ceiling, followed
    by the properties of the subtitle handler, the key handler, the mutation
    observer and the resume action.

    Conventions
    - a JavaScript string is the list of its UTF-16 code units, so [length]
      is the [.length] of the source;
    - a JavaScript number is an IEEE-754 binary64 value ([float]);
    - the globals [settings] and [state], the video element, the pending
      timers of the window and the classes put on DOM nodes are the fields
      of one record, [World], threaded through a state monad. *)

From Stdlib Require Import List Bool Arith NArith PArith ZArith Lia String Ascii.
From Stdlib Require Import Floats Uint63.
Import ListNotations.

Set Warnings "-inexact-float".
Open Scope string_scope.
Open Scope list_scope.
Open Scope nat_scope.

(* ================================================================== *)
(** * 1. JavaScript strings *)
(* ================================================================== *)

Module JsString.

Definition code_unit := N.
Definition jsstring := list code_unit.

Definition jsstring_eqb (a b : jsstring) : bool :=
  if list_eq_dec N.eq_dec a b then true else false.

(** Literals for examples: an ASCII string as code units. *)
Fixpoint js (s : string) : jsstring :=
  match s with
  | EmptyString => []
  | String a r => N_of_ascii a :: js r
  end.

(** [LineTerminator]: LF, CR, LS, PS.  The regular expression atom [.]
    matches every code unit but these. *)
Definition isLineTerminator (c : code_unit) : bool :=
  ((c =? 10) || (c =? 13) || (c =? 8232) || (c =? 8233))%N.

(** The class [\s], which is also what [String.prototype.trim] strips:
    [WhiteSpace] (TAB, VT, FF, ZWNBSP and the space separators) together
    with [LineTerminator]. *)
Definition isWhiteSpace (c : code_unit) : bool :=
  ((c =? 9) || (c =? 11) || (c =? 12) || (c =? 32) || (c =? 160)
   || (c =? 5760) || ((8192 <=? c) && (c <=? 8202))
   || (c =? 8239) || (c =? 8287) || (c =? 12288) || (c =? 65279))%N
  || isLineTerminator c.

Fixpoint dropWhile (p : code_unit -> bool) (s : jsstring) : jsstring :=
  match s with
  | [] => []
  | c :: r => if p c then dropWhile p r else s
  end.

Definition trimStart (s : jsstring) : jsstring := dropWhile isWhiteSpace s.
Definition trimEnd (s : jsstring) : jsstring := rev (dropWhile isWhiteSpace (rev s)).

(** [s.trim()] *)
Definition trim (s : jsstring) : jsstring := trimEnd (trimStart s).

(** [s.replace(/[c]/g, "")] for a character class: every code unit of the
    class is deleted ([/\s+/g] deletes maximal runs, which is the same). *)
Definition replace_class (cls : code_unit -> bool) (s : jsstring) : jsstring :=
  filter (fun c => negb (cls c)) s.

(** The lazy body [.*?] followed by a closing code unit, tried on the text
    after an opening one: the number of code units the match takes (body
    and closer), or [None] when a line terminator or the end of the string
    comes before a closer. *)
Fixpoint lazy_until (close : code_unit) (s : jsstring) : option nat :=
  match s with
  | [] => None
  | c :: r =>
      if (c =? close)%N then Some 1
      else if isLineTerminator c then None
      else option_map S (lazy_until close r)
  end.

(** [s.replace(/o1.*?c1|o2.*?c2/g, "")]: a left-to-right scan; where a
    match starts it is deleted and the scan goes on after it ([skip] counts
    the code units of the current match still to delete), elsewhere the
    code unit is kept. *)
Fixpoint replace_pairs_from (pairs : list (code_unit * code_unit))
    (skip : nat) (s : jsstring) : jsstring :=
  match s with
  | [] => []
  | c :: r =>
      match skip with
      | S k => replace_pairs_from pairs k r
      | O =>
          let try_alt :=
            fix try_alt (ps : list (code_unit * code_unit)) : option nat :=
              match ps with
              | [] => None
              | (o, cl) :: ps' =>
                  if (c =? o)%N then
                    match lazy_until cl r with
                    | Some n => Some n
                    | None => try_alt ps'
                    end
                  else try_alt ps'
              end in
          match try_alt pairs with
          | Some n => replace_pairs_from pairs n r
          | None => c :: replace_pairs_from pairs 0 r
          end
      end
  end.

Definition replace_pairs (pairs : list (code_unit * code_unit)) (s : jsstring) : jsstring :=
  replace_pairs_from pairs 0 s.

Definition LBRACE : code_unit := 123%N.
Definition RBRACE : code_unit := 125%N.
Definition LPAREN : code_unit := 40%N.
Definition RPAREN : code_unit := 41%N.
Definition FW_LPAREN : code_unit := 65288%N.   (* U+FF08 *)
Definition FW_RPAREN : code_unit := 65289%N.   (* U+FF09 *)

End JsString.
Import JsString.

(* ================================================================== *)
(** * 2. JavaScript numbers *)
(* ================================================================== *)

Module JsNumber.

Local Open Scope float_scope.

(** The number of a string length.  Lengths are below [2^53], so the
    conversion is exact. *)
Definition of_length (n : nat) : float :=
  PrimFloat.of_uint63 (Uint63.of_Z (Z.of_nat n)).

Definition is_neg_zero (x : float) : bool :=
  PrimFloat.is_zero x && PrimFloat.get_sign x.

(** [Math.max(a, b)]: NaN if an argument is NaN; [+0] is larger than [-0]. *)
Definition Math_max (a b : float) : float :=
  if PrimFloat.is_nan a || PrimFloat.is_nan b then nan
  else if a <? b then b
  else if b <? a then a
  else if is_neg_zero a then b else a.

(** [Math.min(a, b)]: NaN if an argument is NaN; [-0] is smaller than [+0]. *)
Definition Math_min (a b : float) : float :=
  if PrimFloat.is_nan a || PrimFloat.is_nan b then nan
  else if a <? b then a
  else if b <? a then b
  else if is_neg_zero a then a else b.

End JsNumber.
Import JsNumber.

(* ================================================================== *)
(** * 3. Visible length of a subtitle line *)
(* ================================================================== *)

(** [getVisibleCharCount(text)] *)
Definition visibleText (text : jsstring) : jsstring :=
  let s1 := replace_class (fun c => (c =? 10) || (c =? 13))%N text in
  let s2 := replace_class isWhiteSpace s1 in
  let s3 := replace_pairs [(LBRACE, RBRACE)] s2 in
  replace_pairs [(LPAREN, RPAREN); (FW_LPAREN, FW_RPAREN)] s3.

Definition getVisibleCharCount (text : jsstring) : nat :=
  match text with
  | [] => 0
  | _ => List.length (visibleText text)
  end.

(* ================================================================== *)
(** * 4. Settings, state and the page *)
(* ================================================================== *)

Record Hotkey := mkHotkey {
  h_code : string;
  h_altKey : bool;
  h_ctrlKey : bool;
  h_shiftKey : bool;
  h_metaKey : bool
}.

(** The global [settings]. *)
Record Settings := mkSettings {
  pause_per_char : float;
  min_pause : float;
  max_pause : float;
  min_chars : nat;
  hide_subs : bool;
  hotkey : Hotkey
}.

(** The global [state]. *)
Record State := mkState {
  enabled : bool;
  isAutoPaused : bool;
  isPauseLocked : bool;
  timerId : option positive;
  lastSubText : jsstring;
  uiHidden : bool
}.

(** What [chrome.storage.sync.get] hands to the callback of [loadSettings]. *)
Record StoredItems := mkItems {
  i_pause_per_char : float;
  i_min_pause : float;
  i_max_pause : float;
  i_auto_enable : bool;
  i_hide_subs : bool;
  i_hotkey : Hotkey
}.

Inductive Platform := Youtube | Netflix.

Inductive TimerKind :=
| ResumeTimer        (* () => resumePlayback(video) *)
| OsdHideTimer       (* () => osd.style.display = 'none' *)
| MouseThrottle.     (* () => mouseTimer = null *)

(** A pending [setTimeout]: its handle, its callback and the delay passed. *)
Record Timer := mkTimer {
  tid : positive;
  kind : TimerKind;
  delay_ms : float
}.

(** The class the script last put on the subtitle containers. *)
Inductive SubClass := NoSubClass | PlShowSub | PlHiddenSub.

(** What the script does to the player and shows to the user, in order. *)
Inductive Effect :=
| VideoPause                 (* video.pause() *)
| VideoPlay                  (* video.play() *)
| Notify (msg : string)      (* showOSD(msg) *)
| KeySwallowed.              (* e.preventDefault(); e.stopPropagation() *)

(** A promise returned by [video.play()], once settled. *)
Inductive Promise := Fulfilled | Rejected.

Record World := mkWorld {
  settings : Settings;
  state : State;
  currentPlatform : Platform;
  video_paused : bool;                (* video.paused *)
  timers : list Timer;                (* pending timers of the window *)
  next_timer : positive;              (* the handle the next setTimeout returns *)
  armed : list Timer;                 (* every timer set so far, oldest first *)
  subs : SubClass;
  wrapper_hidden : bool;              (* class pl-netflix-ui-hidden on the wrapper *)
  osd_text : option string;           (* #pl-osd, once created *)
  osd_visible : bool;
  osd_hideTimer : option positive;
  mouseTimer : option positive;
  trace : list Effect
}.

Definition KeyP : string := "KeyP".

(** The initial values of the two globals in the source. *)
Definition default_hotkey : Hotkey := mkHotkey KeyP true false false false.

Definition initial_settings : Settings :=
  mkSettings 0.06 0.5 2.0 2 false default_hotkey.

Definition initial_state : State :=
  mkState false false false None [] false.

Definition initial_world (p : Platform) : World :=
  mkWorld initial_settings initial_state p false [] 1%positive []
          NoSubClass false None false None None [].

(** Field updates. *)
Definition set_enabled (b : bool) (s : State) : State :=
  mkState b (isAutoPaused s) (isPauseLocked s) (timerId s) (lastSubText s) (uiHidden s).
Definition set_isAutoPaused (b : bool) (s : State) : State :=
  mkState (enabled s) b (isPauseLocked s) (timerId s) (lastSubText s) (uiHidden s).
Definition set_isPauseLocked (b : bool) (s : State) : State :=
  mkState (enabled s) (isAutoPaused s) b (timerId s) (lastSubText s) (uiHidden s).
Definition set_timerId (t : option positive) (s : State) : State :=
  mkState (enabled s) (isAutoPaused s) (isPauseLocked s) t (lastSubText s) (uiHidden s).
Definition set_lastSubText (t : jsstring) (s : State) : State :=
  mkState (enabled s) (isAutoPaused s) (isPauseLocked s) (timerId s) t (uiHidden s).
Definition set_uiHidden (b : bool) (s : State) : State :=
  mkState (enabled s) (isAutoPaused s) (isPauseLocked s) (timerId s) (lastSubText s) b.

Definition with_settings (x : Settings) (w : World) : World :=
  mkWorld x (state w) (currentPlatform w) (video_paused w) (timers w) (next_timer w)
          (armed w) (subs w) (wrapper_hidden w) (osd_text w) (osd_visible w) (osd_hideTimer w)
          (mouseTimer w) (trace w).
Definition with_state (x : State) (w : World) : World :=
  mkWorld (settings w) x (currentPlatform w) (video_paused w) (timers w) (next_timer w)
          (armed w) (subs w) (wrapper_hidden w) (osd_text w) (osd_visible w) (osd_hideTimer w)
          (mouseTimer w) (trace w).
Definition with_video_paused (x : bool) (w : World) : World :=
  mkWorld (settings w) (state w) (currentPlatform w) x (timers w) (next_timer w)
          (armed w) (subs w) (wrapper_hidden w) (osd_text w) (osd_visible w) (osd_hideTimer w)
          (mouseTimer w) (trace w).
Definition with_timers (x : list Timer) (w : World) : World :=
  mkWorld (settings w) (state w) (currentPlatform w) (video_paused w) x (next_timer w)
          (armed w) (subs w) (wrapper_hidden w) (osd_text w) (osd_visible w) (osd_hideTimer w)
          (mouseTimer w) (trace w).
Definition with_next_timer (x : positive) (w : World) : World :=
  mkWorld (settings w) (state w) (currentPlatform w) (video_paused w) (timers w) x
          (armed w) (subs w) (wrapper_hidden w) (osd_text w) (osd_visible w) (osd_hideTimer w)
          (mouseTimer w) (trace w).
Definition with_subs (x : SubClass) (w : World) : World :=
  mkWorld (settings w) (state w) (currentPlatform w) (video_paused w) (timers w) (next_timer w)
          (armed w) x (wrapper_hidden w) (osd_text w) (osd_visible w) (osd_hideTimer w)
          (mouseTimer w) (trace w).
Definition with_wrapper_hidden (x : bool) (w : World) : World :=
  mkWorld (settings w) (state w) (currentPlatform w) (video_paused w) (timers w) (next_timer w)
          (armed w) (subs w) x (osd_text w) (osd_visible w) (osd_hideTimer w)
          (mouseTimer w) (trace w).
Definition with_osd (t : option string) (v : bool) (h : option positive) (w : World) : World :=
  mkWorld (settings w) (state w) (currentPlatform w) (video_paused w) (timers w) (next_timer w)
          (armed w) (subs w) (wrapper_hidden w) t v h (mouseTimer w) (trace w).
Definition with_mouseTimer (x : option positive) (w : World) : World :=
  mkWorld (settings w) (state w) (currentPlatform w) (video_paused w) (timers w) (next_timer w)
          (armed w) (subs w) (wrapper_hidden w) (osd_text w) (osd_visible w) (osd_hideTimer w)
          x (trace w).
Definition with_armed (x : list Timer) (w : World) : World :=
  mkWorld (settings w) (state w) (currentPlatform w) (video_paused w) (timers w) (next_timer w)
          x (subs w) (wrapper_hidden w) (osd_text w) (osd_visible w) (osd_hideTimer w)
          (mouseTimer w) (trace w).
Definition with_trace (x : list Effect) (w : World) : World :=
  mkWorld (settings w) (state w) (currentPlatform w) (video_paused w) (timers w) (next_timer w)
          (armed w) (subs w) (wrapper_hidden w) (osd_text w) (osd_visible w) (osd_hideTimer w)
          (mouseTimer w) x.

(* ================================================================== *)
(** * 5. The monad of the handlers *)
(* ================================================================== *)

Definition M (A : Type) : Type := World -> A * World.

Definition ret {A} (a : A) : M A := fun w => (a, w).
Definition bind {A B} (m : M A) (k : A -> M B) : M B :=
  fun w => let (a, w') := m w in k a w'.
Definition gets {A} (f : World -> A) : M A := fun w => (f w, w).
Definition modify (f : World -> World) : M unit := fun w => (tt, f w).
Definition exec {A} (m : M A) (w : World) : World := snd (m w).

Declare Scope js_scope.
Delimit Scope js_scope with js.
Notation "x <- m ;; k" := (bind m (fun x => k))
  (at level 61, m at next level, right associativity) : js_scope.
Notation "m ;; k" := (bind m (fun _ => k))
  (at level 61, right associativity) : js_scope.
Local Open Scope js_scope.

Definition when (b : bool) (m : M unit) : M unit := if b then m else ret tt.

Definition modify_state (f : State -> State) : M unit :=
  modify (fun w => with_state (f (state w)) w).

Definition emit (e : Effect) : M unit :=
  modify (fun w => with_trace (trace w ++ [e]) w).

(** [setTimeout(callback, delay)] *)
Definition setTimeout (k : TimerKind) (delay : float) : M positive :=
  fun w =>
    let id := next_timer w in
    let t := mkTimer id k delay in
    (id, with_next_timer (Pos.succ id)
           (with_armed (armed w ++ [t]) (with_timers (timers w ++ [t]) w))).

(** [clearTimeout(id)] *)
Definition clearTimeout (id : positive) : M unit :=
  modify (fun w => with_timers (filter (fun t => negb (Pos.eqb (tid t) id)) (timers w)) w).

(** [if (handle) clearTimeout(handle)]: a handle is a positive integer, so
    it is truthy exactly when it is not [null]. *)
Definition clearIfSet (h : option positive) : M unit :=
  match h with
  | Some id => clearTimeout id
  | None => ret tt
  end.

(** [video.pause()] *)
Definition video_pause : M unit :=
  emit VideoPause ;; modify (with_video_paused true).

(** [video.play()]: the promise it returns settles as the browser decides. *)
Definition video_play (outcome : Promise) : M Promise :=
  emit VideoPlay ;;
  match outcome with
  | Fulfilled => modify (with_video_paused false) ;; ret Fulfilled
  | Rejected => ret Rejected
  end.

(** [promise.catch(handler)] *)
Definition promise_catch (p : Promise) (handler : M unit) : M unit :=
  match p with
  | Fulfilled => ret tt
  | Rejected => handler
  end.

(* ================================================================== *)
(** * 6. content.js *)
(* ================================================================== *)

(** [showOSD(message)] *)
Definition showOSD (message : string) : M unit :=
  emit (Notify message) ;;
  old <- gets osd_hideTimer ;;
  clearIfSet old ;;
  id <- setTimeout OsdHideTimer 2000 ;;
  modify (with_osd (Some message) true (Some id)).

(** [toggleSubtitles(forceVisible)] *)
Definition toggleSubtitles (forceVisible : bool) : M unit :=
  hs <- gets (fun w => hide_subs (settings w)) ;;
  if negb hs && negb forceVisible then ret tt
  else modify (with_subs (if forceVisible then PlShowSub else PlHiddenSub)).

(** [currentPlatform.toggleUI(hide)] *)
Definition toggleUI (hide : bool) : M unit :=
  p <- gets currentPlatform ;;
  match p with
  | Youtube => ret tt
  | Netflix =>
      modify (with_wrapper_hidden hide) ;;
      modify_state (set_uiHidden hide)
  end.

(** [restoreUI()] *)
Definition restoreUI : M unit :=
  h <- gets (fun w => uiHidden (state w)) ;;
  when h (toggleUI false).

(** The callback [loadSettings(callback)] gives to the storage, run on the
    stored items. *)
Definition loadSettings (callback : option (M unit)) (items : StoredItems) : M unit :=
  modify (fun w =>
    with_settings
      (mkSettings (i_pause_per_char items) (i_min_pause items) (i_max_pause items)
                  (min_chars (settings w)) (i_hide_subs items) (i_hotkey items)) w) ;;
  match callback with
  | Some cb => modify_state (set_enabled (i_auto_enable items)) ;; cb
  | None => ret tt
  end ;;
  s <- gets state ;;
  hs <- gets (fun w => hide_subs (settings w)) ;;
  if enabled s && hs && negb (isAutoPaused s)
  then toggleSubtitles false
  else toggleSubtitles true.

(** [resumePlayback(video)]; [outcome] is how the promise of [video.play()]
    settles. *)
Definition resumePlayback (outcome : Promise) : M unit :=
  t <- gets (fun w => timerId (state w)) ;;
  clearIfSet t ;;
  modify_state (set_timerId None) ;;
  modify_state (set_isAutoPaused false) ;;
  modify_state (set_isPauseLocked false) ;;
  hs <- gets (fun w => hide_subs (settings w)) ;;
  when hs (toggleSubtitles false) ;;
  p <- video_play outcome ;;
  promise_catch p (ret tt).

(** [lockPause()] *)
Definition lockPause : M unit :=
  t <- gets (fun w => timerId (state w)) ;;
  match t with
  | Some id => clearTimeout id ;; modify_state (set_timerId None)
  | None => ret tt
  end ;;
  modify_state (set_isPauseLocked true) ;;
  showOSD "|| Pause Locked".

(** [handleSubtitle(text, video)] *)
Definition handleSubtitle (text : jsstring) : M unit :=
  en <- gets (fun w => enabled (state w)) ;;
  if negb en || jsstring_eqb text [] then ret tt else
  let cleanText := trim text in
  last <- gets (fun w => lastSubText (state w)) ;;
  if jsstring_eqb cleanText last then ret tt else
  modify_state (set_lastSubText cleanText) ;;
  let chars := getVisibleCharCount cleanText in
  mc <- gets (fun w => min_chars (settings w)) ;;
  if chars <? mc then ret tt else
  s <- gets settings ;;
  let duration := Math_max (min_pause s) (of_length chars * pause_per_char s) in
  let duration := Math_min (max_pause s) duration in
  modify_state (set_isAutoPaused true) ;;
  toggleUI true ;;
  video_pause ;;
  when (hide_subs s) (toggleSubtitles true) ;;
  id <- setTimeout ResumeTimer (duration * 1000) ;;
  modify_state (set_timerId (Some id)).

(** A [keydown] event, as far as the listener reads it. *)
Record KeyEvent := mkKey {
  e_code : string;
  e_key : string;
  e_ctrlKey : bool;
  e_altKey : bool;
  e_shiftKey : bool;
  e_metaKey : bool
}.

Definition matchesHotkey (e : KeyEvent) (h : Hotkey) : bool :=
  String.eqb (e_code e) (h_code h)
  && Bool.eqb (e_ctrlKey e) (h_ctrlKey h)
  && Bool.eqb (e_altKey e) (h_altKey h)
  && Bool.eqb (e_shiftKey e) (h_shiftKey h)
  && Bool.eqb (e_metaKey e) (h_metaKey h).

Definition isInteractionKey (e : KeyEvent) : bool :=
  String.eqb (e_code e) "Space" || String.eqb (e_key e) "k" || String.eqb (e_key e) "p".

(** The [keydown] listener of [startObserver]. *)
Definition onKeydown (e : KeyEvent) (outcome : Promise) : M unit :=
  restoreUI ;;
  h <- gets (fun w => hotkey (settings w)) ;;
  if matchesHotkey e h then
    modify_state (fun s => set_enabled (negb (enabled s)) s) ;;
    en <- gets (fun w => enabled (state w)) ;;
    showOSD (if en then "Primed Listening: ON" else "Primed Listening: OFF") ;;
    if negb en then
      ap <- gets (fun w => isAutoPaused (state w)) ;;
      when ap (resumePlayback outcome) ;;
      toggleSubtitles true ;;
      restoreUI
    else
      hs <- gets (fun w => hide_subs (settings w)) ;;
      when hs (toggleSubtitles false)
  else
  en <- gets (fun w => enabled (state w)) ;;
  if negb en then ret tt else
  ap <- gets (fun w => isAutoPaused (state w)) ;;
  if isInteractionKey e && ap then
    emit KeySwallowed ;;
    locked <- gets (fun w => isPauseLocked (state w)) ;;
    if negb locked then lockPause else resumePlayback outcome
  else ret tt.

(** The [mousemove] listener. *)
Definition onMousemove : M unit :=
  ap <- gets (fun w => isAutoPaused (state w)) ;;
  if negb ap then
    mt <- gets mouseTimer ;;
    match mt with
    | Some _ => ret tt
    | None =>
        restoreUI ;;
        id <- setTimeout MouseThrottle 200 ;;
        modify (with_mouseTimer (Some id))
    end
  else ret tt.

(** What [currentPlatform.getText()] does when the observer calls it: it
    returns the text on screen or throws on an unexpected DOM. *)
Inductive DomRead :=
| DomText (text : jsstring)
| DomThrows.

(** The callback of the [MutationObserver]. *)
Definition onMutations (dom : DomRead) : M unit :=
  en <- gets (fun w => enabled (state w)) ;;
  vp <- gets video_paused ;;
  ap <- gets (fun w => isAutoPaused (state w)) ;;
  if negb en || (vp && negb ap) then ret tt else
  match dom with
  | DomThrows => ret tt                                (* catch (error) {} *)
  | DomText text =>
      if negb (jsstring_eqb text []) && (0 <? List.length text)
      then handleSubtitle text
      else ret tt
  end.

(** A pending timer comes due: it leaves the pending set and its callback
    runs.  A handle that is not pending fires nothing. *)
Definition fireTimer (id : positive) (outcome : Promise) : M unit :=
  ts <- gets timers ;;
  match find (fun t => Pos.eqb (tid t) id) ts with
  | None => ret tt
  | Some t =>
      clearTimeout id ;;
      match kind t with
      | ResumeTimer => resumePlayback outcome
      | OsdHideTimer => modify (fun w => with_osd (osd_text w) false (osd_hideTimer w) w)
      | MouseThrottle => modify (with_mouseTimer None)
      end
  end.

(** The [loadSettings] call of [startObserver], with its callback. *)
Definition startObserver_load (items : StoredItems) : M unit :=
  loadSettings
    (Some (en <- gets (fun w => enabled (state w)) ;;
           when en (showOSD "Primed Listening Ready")))
    items.

(** The [UPDATE_SETTINGS] message listener. *)
Definition onUpdateSettings (items : StoredItems) : M unit :=
  loadSettings None items.

(** ** The events of a session *)

Inductive Event :=
| EvSettingsLoaded (items : StoredItems)           (* initial load *)
| EvUpdateSettings (items : StoredItems)           (* message from the popup *)
| EvMutations (dom : DomRead)
| EvKeydown (e : KeyEvent) (outcome : Promise)
| EvMousemove
| EvTimer (id : positive) (outcome : Promise)
| EvPlayerPaused (paused : bool).                  (* the user or the player sets video.paused *)

Definition step (ev : Event) : M unit :=
  match ev with
  | EvSettingsLoaded items => startObserver_load items
  | EvUpdateSettings items => onUpdateSettings items
  | EvMutations dom => onMutations dom
  | EvKeydown e outcome => onKeydown e outcome
  | EvMousemove => onMousemove
  | EvTimer id outcome => fireTimer id outcome
  | EvPlayerPaused p => modify (with_video_paused p)
  end.

Fixpoint run (evs : list Event) (w : World) : World :=
  match evs with
  | [] => w
  | ev :: rest => run rest (exec (step ev) w)
  end.

(** The worlds a session can be in. *)
Definition reachable (w : World) : Prop :=
  exists p evs, w = run evs (initial_world p).

(** ** Reading a world *)

Definition is_resume (t : Timer) : bool :=
  match kind t with ResumeTimer => true | _ => false end.

Definition resumeTimers (w : World) : list Timer :=
  filter is_resume (timers w).

Definition is_pause (e : Effect) : bool :=
  match e with VideoPause => true | _ => false end.

(** The effects a handler adds from [w]. *)
Definition effectsOf (m : M unit) (w : World) : list Effect :=
  skipn (List.length (trace w)) (trace (exec m w)).

(** The number of [video.pause()] calls a handler makes from [w]. *)
Definition pausesOf (m : M unit) (w : World) : nat :=
  List.length (filter is_pause (effectsOf m w)).

(** The resume timers a handler sets from [w]. *)
Definition armedBy (m : M unit) (w : World) : list Timer :=
  filter is_resume (skipn (List.length (armed w)) (armed (exec m w))).

(** The delay in milliseconds of the resume a handler schedules, if any
    (of the last one, should it schedule several). *)
Definition scheduledDelay (m : M unit) (w : World) : option float :=
  match rev (armedBy m w) with
  | t :: _ => Some (delay_ms t)
  | [] => None
  end.

(* ================================================================== *)
(** * 7. The earlier content script *)
(* ================================================================== *)

(** The variant of the content script without a pause ceiling and without
    the Netflix interface suppression.  Its [state] has no [uiHidden] and its
    [settings] no [max_pause]; it leaves those fields alone.  Its
    [getVisibleCharCount], [toggleSubtitles] and [resumePlayback] are those
    of section 6. *)
Module Legacy.

(** [handleSubtitle(text, video)] *)
Definition handleSubtitle (text : jsstring) : M unit :=
  en <- gets (fun w => enabled (state w)) ;;
  if negb en || jsstring_eqb text [] then ret tt else
  let cleanText := trim text in
  last <- gets (fun w => lastSubText (state w)) ;;
  if jsstring_eqb cleanText last then ret tt else
  modify_state (set_lastSubText cleanText) ;;
  let chars := getVisibleCharCount cleanText in
  mc <- gets (fun w => min_chars (settings w)) ;;
  if chars <? mc then ret tt else
  s <- gets settings ;;
  let duration := Math_max (min_pause s) (of_length chars * pause_per_char s) in
  modify_state (set_isAutoPaused true) ;;
  video_pause ;;
  when (hide_subs s) (toggleSubtitles true) ;;
  id <- setTimeout ResumeTimer (duration * 1000) ;;
  modify_state (set_timerId (Some id)).

End Legacy.

(* ================================================================== *)
(** * 8. The specification's vocabulary *)
(* ================================================================== *)

Module Spec.

(** The subtitle text after stripping newlines and all whitespace,
    paired-brace annotations, and paired-parenthesis annotations (ASCII
    and fullwidth). *)
Definition stripped (text : jsstring) : jsstring :=
  replace_pairs [(LPAREN, RPAREN); (FW_LPAREN, FW_RPAREN)]
    (replace_pairs [(LBRACE, RBRACE)]
      (replace_class isWhiteSpace text)).

(** [chars]: the count of characters left. *)
Definition chars (text : jsstring) : nat := List.length (stripped text).

(** [duration(c) = min(maxPause, max(minPause, c * pausePerChar))] *)
Definition duration (pausePerChar minPause maxPause : float) (c : nat) : float :=
  Math_min maxPause (Math_max minPause (of_length c * pausePerChar)).

(** A subtitle event triggers a pause: the handler calls [video.pause()]. *)
Definition triggersPause (m : M unit) (w : World) : Prop :=
  pausesOf m w <> 0.

(** The states of the machine. *)
Definition Idle (w : World) : Prop :=
  isAutoPaused (state w) = false /\ isPauseLocked (state w) = false
  /\ timerId (state w) = None.

Definition AutoPaused (w : World) : Prop :=
  enabled (state w) = true /\ isAutoPaused (state w) = true
  /\ isPauseLocked (state w) = false.

Definition Locked (w : World) : Prop :=
  enabled (state w) = true /\ isAutoPaused (state w) = true
  /\ isPauseLocked (state w) = true.

End Spec.

(* ================================================================== *)
(** * 9. The worlds the handlers leave *)
(* ================================================================== *)

(** The gate of [handleSubtitle]: the event gets past the three early
    returns. *)
Definition passesGate (w : World) (text : jsstring) : bool :=
  enabled (state w)
  && negb (jsstring_eqb text [])
  && negb (jsstring_eqb (trim text) (lastSubText (state w)))
  && negb (getVisibleCharCount (trim text) <? min_chars (settings w)).

(** The world [handleSubtitle] leaves when it pauses for [duration] seconds. *)
Definition pausedWorld (w : World) (text : jsstring) (duration : float) : World :=
  let netflix := match currentPlatform w with Netflix => true | Youtube => false end in
  mkWorld (settings w)
    (mkState (enabled (state w)) true (isPauseLocked (state w))
             (Some (next_timer w)) (trim text)
             (if netflix then true else uiHidden (state w)))
    (currentPlatform w) true
    (timers w ++ [mkTimer (next_timer w) ResumeTimer (duration * 1000)])
    (Pos.succ (next_timer w))
    (armed w ++ [mkTimer (next_timer w) ResumeTimer (duration * 1000)])
    (if hide_subs (settings w) then PlShowSub else subs w)
    (if netflix then true else wrapper_hidden w)
    (osd_text w) (osd_visible w) (osd_hideTimer w) (mouseTimer w)
    (trace w ++ [VideoPause]).

(** The world the earlier script leaves when it pauses. *)
Definition legacyPausedWorld (w : World) (text : jsstring) (duration : float) : World :=
  mkWorld (settings w)
    (mkState (enabled (state w)) true (isPauseLocked (state w))
             (Some (next_timer w)) (trim text) (uiHidden (state w)))
    (currentPlatform w) true
    (timers w ++ [mkTimer (next_timer w) ResumeTimer (duration * 1000)])
    (Pos.succ (next_timer w))
    (armed w ++ [mkTimer (next_timer w) ResumeTimer (duration * 1000)])
    (if hide_subs (settings w) then PlShowSub else subs w)
    (wrapper_hidden w)
    (osd_text w) (osd_visible w) (osd_hideTimer w) (mouseTimer w)
    (trace w ++ [VideoPause]).

(** The pending timers once the handle in [state.timerId] is cleared. *)
Definition withoutHandle (h : option positive) (ts : list Timer) : list Timer :=
  match h with
  | Some id => filter (fun t => negb (Pos.eqb (tid t) id)) ts
  | None => ts
  end.

(** The world [resumePlayback] leaves. *)
Definition resumedWorld (w : World) (outcome : Promise) : World :=
  mkWorld (settings w)
    (mkState (enabled (state w)) false false None (lastSubText (state w))
             (uiHidden (state w)))
    (currentPlatform w)
    (match outcome with Fulfilled => false | Rejected => video_paused w end)
    (withoutHandle (timerId (state w)) (timers w))
    (next_timer w) (armed w)
    (if hide_subs (settings w) then PlHiddenSub else subs w)
    (wrapper_hidden w) (osd_text w) (osd_visible w) (osd_hideTimer w)
    (mouseTimer w) (trace w ++ [VideoPlay]).

Definition osdTimer (w : World) : Timer := mkTimer (next_timer w) OsdHideTimer 2000.

(** [state.uiHidden] and the wrapper class once [restoreUI] has run. *)
Definition uiHiddenRestored (w : World) : bool :=
  match currentPlatform w with Netflix => false | Youtube => uiHidden (state w) end.

Definition wrapperRestored (w : World) : bool :=
  match currentPlatform w with
  | Netflix => if uiHidden (state w) then false else wrapper_hidden w
  | Youtube => wrapper_hidden w
  end.

(** The world after an interaction key locks the pause. *)
Definition lockedWorld (w : World) : World :=
  mkWorld (settings w)
    (mkState (enabled (state w)) (isAutoPaused (state w)) true None
             (lastSubText (state w)) (uiHiddenRestored w))
    (currentPlatform w) (video_paused w)
    (withoutHandle (osd_hideTimer w) (withoutHandle (timerId (state w)) (timers w))
       ++ [osdTimer w])
    (Pos.succ (next_timer w)) (armed w ++ [osdTimer w])
    (subs w) (wrapperRestored w)
    (Some "|| Pause Locked") true (Some (next_timer w)) (mouseTimer w)
    ((trace w ++ [KeySwallowed]) ++ [Notify "|| Pause Locked"]).

(** The world after an interaction key releases a locked pause. *)
Definition releasedWorld (w : World) (outcome : Promise) : World :=
  mkWorld (settings w)
    (mkState (enabled (state w)) false false None
             (lastSubText (state w)) (uiHiddenRestored w))
    (currentPlatform w)
    (match outcome with Fulfilled => false | Rejected => video_paused w end)
    (withoutHandle (timerId (state w)) (timers w))
    (next_timer w) (armed w)
    (if hide_subs (settings w) then PlHiddenSub else subs w)
    (wrapperRestored w)
    (osd_text w) (osd_visible w) (osd_hideTimer w) (mouseTimer w)
    ((trace w ++ [KeySwallowed]) ++ [VideoPlay]).

(** The world after the toggle chord switches the script off during an
    auto-pause. *)
Definition switchedOffWorld (w : World) (outcome : Promise) : World :=
  mkWorld (settings w)
    (mkState false false false None (lastSubText (state w)) (uiHiddenRestored w))
    (currentPlatform w)
    (match outcome with Fulfilled => false | Rejected => video_paused w end)
    (withoutHandle (timerId (state w))
       (withoutHandle (osd_hideTimer w) (timers w) ++ [osdTimer w]))
    (Pos.succ (next_timer w)) (armed w ++ [osdTimer w])
    PlShowSub (wrapperRestored w)
    (Some "Primed Listening: OFF") true (Some (next_timer w)) (mouseTimer w)
    ((trace w ++ [Notify "Primed Listening: OFF"]) ++ [VideoPlay]).

(* ================================================================== *)
(** * 10. Sessions and inputs used as examples *)
(* ================================================================== *)

Definition kikuDefaults : StoredItems :=
  mkItems 0.06 0.5 10.0 true false default_hotkey.

(** A session on Netflix right after the settings have loaded. *)
Definition readyWorld : World :=
  run [EvSettingsLoaded kikuDefaults] (initial_world Netflix).

Definition shortLine : jsstring := js "a".
Definition longLine : jsstring := js "Hello there".
Definition otherLine : jsstring := js "General Kenobi".

(** The session once the first line has paused the video. *)
Definition pausedOnce : World :=
  run [EvMutations (DomText longLine)] readyWorld.

(** The user pauses the video by hand on a ready session. *)
Definition userPaused : World :=
  run [EvPlayerPaused true] readyWorld.

(** The session once a second line has arrived during the first pause. *)
Definition pausedTwice : World :=
  run [EvMutations (DomText otherLine)] pausedOnce.

(** Two hundred letters: twelve seconds of pause before the ceiling. *)
Definition wallOfText : jsstring := repeat 97%N 200.

Definition spaceKey : KeyEvent := mkKey "Space" " " false false false false.
Definition plainK : KeyEvent := mkKey "KeyK" "k" false false false false.
Definition plainP : KeyEvent := mkKey "KeyP" "p" false false false false.
Definition altP : KeyEvent := mkKey "KeyP" "p" false true false false.

(** The user has recorded the plain space bar as the toggle chord. *)
Definition spaceChordItems : StoredItems :=
  mkItems 0.06 0.5 10.0 true false (mkHotkey "Space" false false false false).

Definition spaceChordSession : World :=
  run [EvUpdateSettings spaceChordItems] pausedOnce.

(* ================================================================== *)
(** * 11. The rest of the page: caption readers, the popup's recorder *)
(* ================================================================== *)

(** [Array.prototype.join(sep)] on strings. *)
Fixpoint js_join (sep : jsstring) (parts : list jsstring) : jsstring :=
  match parts with
  | [] => []
  | [x] => x
  | x :: rest => x ++ sep ++ js_join sep rest
  end.

(** [PLATFORMS.youtube.getText()], on the [innerText] of the caption
    segments found in the document. *)
Definition youtube_getText (segments : list jsstring) : jsstring :=
  match segments with
  | [] => []
  | _ => js_join [32%N] segments
  end.

(** [PLATFORMS.netflix.getText()], on the [innerText] of the text container
    and of the timed-text element, where the document has them. *)
Definition netflix_getText (container span : option jsstring) : jsstring :=
  match container with
  | Some t => t
  | None =>
      match span with
      | Some t => t
      | None => []
      end
  end.

(** The opening delimiters of the two annotation patterns. *)
Definition isOpener (c : code_unit) : bool :=
  ((c =? LBRACE) || (c =? LPAREN) || (c =? FW_LPAREN))%N.

(** Any delimiter of the two annotation patterns. *)
Definition isDelimiter (c : code_unit) : bool :=
  isOpener c || ((c =? RBRACE) || (c =? RPAREN) || (c =? FW_RPAREN))%N.

(** A code unit the four replacements of [getVisibleCharCount] never look
    at: neither whitespace nor a delimiter. *)
Definition isPlain (c : code_unit) : bool :=
  negb (isWhiteSpace c) && negb (isDelimiter c).

(** The three delimiter pairs. *)
Definition annotationPairs : list (code_unit * code_unit) :=
  [(LBRACE, RBRACE); (LPAREN, RPAREN); (FW_LPAREN, FW_RPAREN)].

(** The product the handler takes for a line. *)
Definition lineProduct (w : World) (text : jsstring) : float :=
  (of_length (Spec.chars text) * pause_per_char (settings w))%float.

(** What every handler keeps true of the flags and the settings. *)
Definition flagsInv (w : World) : Prop :=
  (timerId (state w) <> None -> isAutoPaused (state w) = true)
  /\ (isPauseLocked (state w) = true -> isAutoPaused (state w) = true)
  /\ min_chars (settings w) = 2
  /\ uiHidden (state w) = wrapper_hidden w
  /\ (currentPlatform w = Youtube -> uiHidden (state w) = false).

Definition kind_eqb (a b : TimerKind) : bool :=
  match a, b with
  | ResumeTimer, ResumeTimer | OsdHideTimer, OsdHideTimer
  | MouseThrottle, MouseThrottle => true
  | _, _ => false
  end.

Definition ofKind (k : TimerKind) (ts : list Timer) : list Timer :=
  filter (fun t => kind_eqb (kind t) k) ts.

(** The pending timers of kind [k] are at most one, and the handle [h] is
    that one's. *)
Definition owned (k : TimerKind) (ts : list Timer) (h : option positive) : Prop :=
  List.length (ofKind k ts) <= 1
  /\ forall t, In t (ofKind k ts) -> h = Some (tid t).

(** What every handler keeps true of the notifier's and the mouse
    listener's timers. *)
Definition timersInv (w : World) : Prop :=
  owned OsdHideTimer (timers w) (osd_hideTimer w)
  /\ owned MouseThrottle (timers w) (mouseTimer w).

(** Handles are fresh: every pending timer was set before the next handle. *)
Definition freshInv (w : World) : Prop :=
  Forall (fun t => (tid t < next_timer w)%positive) (timers w).

(** ** popup.js: the hotkey recorder *)

(** The hotkey object the popup keeps and saves: the chord and its label. *)
Record RecordedHotkey := mkRecorded {
  r_code : string;
  r_ctrlKey : bool;
  r_altKey : bool;
  r_shiftKey : bool;
  r_metaKey : bool;
  r_display : string
}.

(** What the content script reads of a saved hotkey. *)
Definition storedHotkey (r : RecordedHotkey) : Hotkey :=
  mkHotkey (r_code r) (r_altKey r) (r_ctrlKey r) (r_shiftKey r) (r_metaKey r).

Record Popup := mkPopup {
  currentHotkey : RecordedHotkey;
  hotkeyDisplay_value : string
}.

Fixpoint dropChars (n : nat) (s : string) : string :=
  match n, s with
  | S k, String _ r => dropChars k r
  | _, _ => s
  end.

(** [s.replace(pat, "")] for a string pattern: the first occurrence goes. *)
Fixpoint removeFirst (pat s : string) : string :=
  if String.prefix pat s then dropChars (String.length pat) s
  else match s with
       | EmptyString => EmptyString
       | String c r => String c (removeFirst pat r)
       end.

Definition isModifierKey (key : string) : bool :=
  String.eqb key "Control" || String.eqb key "Alt"
  || String.eqb key "Shift" || String.eqb key "Meta".

(** The label of a chord: [parts.join(' + ')]. *)
Definition chordLabel (e : KeyEvent) : string :=
  let parts :=
    (if e_ctrlKey e then ["Ctrl"] else [])
    ++ (if e_altKey e then ["Alt"] else [])
    ++ (if e_shiftKey e then ["Shift"] else [])
    ++ (if e_metaKey e then ["Cmd"] else []) in
  let cleanKey := removeFirst "Digit" (removeFirst "Key" (e_code e)) in
  String.concat " + " (parts ++ [cleanKey]).

(** The [keydown] listener of the hotkey field. *)
Definition recordHotkey (e : KeyEvent) (p : Popup) : Popup :=
  if isModifierKey (e_key e) then p
  else
    let displayString := chordLabel e in
    mkPopup (mkRecorded (e_code e) (e_ctrlKey e) (e_altKey e) (e_shiftKey e)
                        (e_metaKey e) displayString)
            displayString.

(** The code of a letter key. *)
Definition letterCode (c : ascii) : string :=
  String "K" (String "e" (String "y" (String c EmptyString))).

(** A session on YouTube right after the settings have loaded. *)
Definition youtubeReady : World :=
  run [EvSettingsLoaded kikuDefaults] (initial_world Youtube).

(** The rate field of the popup was saved empty. *)
Definition nanRateItems : StoredItems :=
  mkItems nan 0.5 10.0 true false default_hotkey.

Definition nanRateSession : World :=
  run [EvSettingsLoaded nanRateItems] (initial_world Youtube).

(* ================================================================== *)
(** * 12. Strings: trimming does not change the visible length *)
(* ================================================================== *)

Section StringFacts.

Lemma jsstring_eqb_eq (a b : jsstring) : jsstring_eqb a b = true <-> a = b.
Proof.
  unfold jsstring_eqb. destruct (list_eq_dec N.eq_dec a b); split; congruence.
Qed.

Lemma jsstring_eqb_neq (a b : jsstring) : jsstring_eqb a b = false <-> a <> b.
Proof.
  unfold jsstring_eqb. destruct (list_eq_dec N.eq_dec a b); split; congruence.
Qed.

Lemma jsstring_eqb_refl (a : jsstring) : jsstring_eqb a a = true.
Proof. now apply jsstring_eqb_eq. Qed.

Lemma newline_is_whitespace (c : code_unit) :
  ((c =? 10) || (c =? 13))%N = true -> isWhiteSpace c = true.
Proof.
  intros H. unfold isWhiteSpace, isLineTerminator.
  apply orb_true_iff in H as [H | H]; rewrite H;
    repeat rewrite orb_true_r; reflexivity.
Qed.

Lemma replace_ws_after_newlines (s : jsstring) :
  replace_class isWhiteSpace (replace_class (fun c => (c =? 10) || (c =? 13))%N s)
  = replace_class isWhiteSpace s.
Proof.
  unfold replace_class. induction s as [| c r IH]; [reflexivity |].
  cbn [filter].
  destruct ((c =? 10) || (c =? 13))%N eqn:E; cbn [negb].
  - rewrite (newline_is_whitespace _ E). cbn [negb]. exact IH.
  - cbn [filter]. now rewrite IH.
Qed.

Lemma replace_ws_dropWhile (s : jsstring) :
  replace_class isWhiteSpace (dropWhile isWhiteSpace s) = replace_class isWhiteSpace s.
Proof.
  unfold replace_class. induction s as [| c r IH]; [reflexivity |].
  cbn [dropWhile filter]. destruct (isWhiteSpace c) eqn:E; cbn [negb].
  - exact IH.
  - cbn [filter]. now rewrite E.
Qed.

Lemma replace_class_rev (p : code_unit -> bool) (s : jsstring) :
  replace_class p (rev s) = rev (replace_class p s).
Proof.
  unfold replace_class. induction s as [| c r IH]; [reflexivity |].
  cbn [rev filter]. rewrite filter_app, IH. cbn [filter].
  destruct (negb (p c)); cbn [rev]; [reflexivity | now rewrite app_nil_r].
Qed.

Lemma replace_ws_trim (s : jsstring) :
  replace_class isWhiteSpace (trim s) = replace_class isWhiteSpace s.
Proof.
  unfold trim, trimEnd, trimStart.
  rewrite replace_class_rev, replace_ws_dropWhile, replace_class_rev, rev_involutive.
  apply replace_ws_dropWhile.
Qed.

(** The handler counts on the trimmed text; the count is that of the text. *)
Lemma visible_count_trim (text : jsstring) :
  getVisibleCharCount (trim text) = Spec.chars text.
Proof.
  unfold getVisibleCharCount, Spec.chars, Spec.stripped.
  destruct (trim text) as [| c r] eqn:E.
  - rewrite <- (replace_ws_trim text), E. reflexivity.
  - rewrite <- E. unfold visibleText.
    now rewrite replace_ws_after_newlines, replace_ws_trim.
Qed.

Lemma visible_count_spec (text : jsstring) :
  getVisibleCharCount text = Spec.chars text.
Proof.
  unfold getVisibleCharCount, Spec.chars, Spec.stripped.
  destruct text as [| c r]; [reflexivity |].
  unfold visibleText. now rewrite replace_ws_after_newlines.
Qed.

End StringFacts.

Example count_plain : getVisibleCharCount (js "Hello world") = 10.
Proof. reflexivity. Qed.

Example count_annotated : getVisibleCharCount (js "{\an8}Hi (laughs) there") = 7.
Proof. reflexivity. Qed.

Example count_unclosed : getVisibleCharCount (js "a (b") = 3.
Proof. reflexivity. Qed.

Example count_first_closer : getVisibleCharCount (js "{a{b}c}") = 2.
Proof. reflexivity. Qed.

Example count_fullwidth : getVisibleCharCount [65288; 97; 65289; 98]%N = 1.
Proof. reflexivity. Qed.

Example count_mixed_pair_kept : getVisibleCharCount [40; 97; 65289]%N = 3.
Proof. reflexivity. Qed.

Example trim_both_ends : trim (js "  Hello there ") = js "Hello there".
Proof. reflexivity. Qed.

(* ================================================================== *)
(** * 13. The subtitle handler, case by case *)
(* ================================================================== *)

Arguments trim : simpl never.
Arguments getVisibleCharCount : simpl never.
Arguments jsstring_eqb : simpl never.
Arguments Math_max : simpl never.
Arguments Math_min : simpl never.
Arguments of_length : simpl never.
Arguments Nat.ltb : simpl never.
Arguments matchesHotkey : simpl never.
Arguments isInteractionKey : simpl never.

Ltac unfold_m :=
  unfold exec, handleSubtitle, Legacy.handleSubtitle, onMutations, onKeydown,
    onMousemove, lockPause, resumePlayback, showOSD, toggleSubtitles, toggleUI,
    restoreUI, video_pause, video_play, promise_catch, clearIfSet, clearTimeout,
    setTimeout, emit, modify_state, when, bind, gets, modify, ret.

Ltac destruct_world w :=
  let se := fresh "se" in
  let st := fresh "st" in
  let pf := fresh "pf" in
  let hs := fresh "hs" in
  destruct w as [se st pf ? ? ? ? ? ? ? ? ? ? ?];
  destruct st as [? ? ? ? ? ?];
  destruct se as [? ? ? ? hs ?];
  cbn [settings state currentPlatform video_paused timers next_timer armed subs
       wrapper_hidden osd_text osd_visible osd_hideTimer mouseTimer trace
       enabled isAutoPaused isPauseLocked timerId lastSubText uiHidden
       pause_per_char min_pause max_pause min_chars hide_subs hotkey] in *.

Section HandleSubtitle.

Variable w : World.
Variable text : jsstring.

Lemma handleSubtitle_disabled :
  enabled (state w) = false -> exec (handleSubtitle text) w = w.
Proof. intros H. unfold_m. cbn. now rewrite H. Qed.

Lemma handleSubtitle_empty :
  text = [] -> exec (handleSubtitle text) w = w.
Proof.
  intros ->. unfold_m. cbn. rewrite jsstring_eqb_refl, orb_true_r. reflexivity.
Qed.

Lemma handleSubtitle_dedup :
  trim text = lastSubText (state w) -> exec (handleSubtitle text) w = w.
Proof.
  intros H. apply jsstring_eqb_eq in H. unfold_m. cbn.
  destruct (negb (enabled (state w)) || jsstring_eqb text []); [reflexivity |].
  cbn. now rewrite H.
Qed.

Lemma handleSubtitle_short :
  enabled (state w) = true -> text <> [] ->
  trim text <> lastSubText (state w) ->
  getVisibleCharCount (trim text) < min_chars (settings w) ->
  exec (handleSubtitle text) w
  = with_state (set_lastSubText (trim text) (state w)) w.
Proof.
  intros He Ht Hl Hc.
  apply jsstring_eqb_neq in Ht, Hl. apply Nat.ltb_lt in Hc.
  unfold_m. cbn. rewrite He, Ht. cbn. rewrite Hl. cbn. now rewrite Hc.
Qed.

Lemma handleSubtitle_pause :
  passesGate w text = true ->
  exec (handleSubtitle text) w
  = pausedWorld w text
      (Math_min (max_pause (settings w))
         (Math_max (min_pause (settings w))
            (of_length (getVisibleCharCount (trim text))
             * pause_per_char (settings w)))).
Proof.
  unfold passesGate. intros H.
  apply andb_true_iff in H as [H Hc]. apply andb_true_iff in H as [H Hl].
  apply andb_true_iff in H as [He Ht].
  apply negb_true_iff in Hc, Hl, Ht.
  unfold pausedWorld. destruct_world w.
  unfold_m. cbn. rewrite He, Ht. cbn. rewrite Hl. cbn. rewrite Hc. cbn.
  destruct pf; cbn; destruct hs; reflexivity.
Qed.

Lemma handleSubtitle_no_pause :
  passesGate w text = false ->
  exec (handleSubtitle text) w = w
  \/ exec (handleSubtitle text) w
     = with_state (set_lastSubText (trim text) (state w)) w.
Proof.
  unfold passesGate. intros H.
  destruct (enabled (state w)) eqn:He;
    [| left; now apply handleSubtitle_disabled].
  destruct (jsstring_eqb text []) eqn:Ht;
    [left; apply handleSubtitle_empty; now apply jsstring_eqb_eq |].
  destruct (jsstring_eqb (trim text) (lastSubText (state w))) eqn:Hl;
    [left; apply handleSubtitle_dedup; now apply jsstring_eqb_eq |].
  cbn in H. apply negb_false_iff, Nat.ltb_lt in H.
  right. apply handleSubtitle_short; trivial; now apply jsstring_eqb_neq.
Qed.

End HandleSubtitle.

Section PauseFacts.

Variable w : World.
Variable text : jsstring.

Lemma skipn_length_app {A} (l x : list A) : skipn (List.length l) (l ++ x) = x.
Proof. rewrite skipn_app, skipn_all, Nat.sub_diag. reflexivity. Qed.

Lemma effectsOf_app (m : M unit) (es : list Effect) :
  trace (exec m w) = trace w ++ es -> effectsOf m w = es.
Proof. unfold effectsOf. intros ->. apply skipn_length_app. Qed.

Lemma effectsOf_same (m : M unit) :
  trace (exec m w) = trace w -> effectsOf m w = [].
Proof. unfold effectsOf. intros ->. apply skipn_all. Qed.

Lemma armedBy_same (m : M unit) :
  armed (exec m w) = armed w -> armedBy m w = [].
Proof. unfold armedBy. intros ->. now rewrite skipn_all. Qed.

Lemma armedBy_app (m : M unit) (ts : list Timer) :
  armed (exec m w) = armed w ++ ts ->
  armedBy m w
  = filter (fun t => match kind t with ResumeTimer => true | _ => false end) ts.
Proof. unfold armedBy. intros ->. now rewrite skipn_length_app. Qed.

Lemma handleSubtitle_pauses_gate :
  pausesOf (handleSubtitle text) w = if passesGate w text then 1 else 0.
Proof.
  unfold pausesOf. destruct (passesGate w text) eqn:G.
  - rewrite (effectsOf_app _ [VideoPause]); [reflexivity |].
    now rewrite handleSubtitle_pause.
  - rewrite effectsOf_same; [reflexivity |].
    destruct (handleSubtitle_no_pause w text G) as [-> | ->]; reflexivity.
Qed.

Lemma triggersPause_gate :
  Spec.triggersPause (handleSubtitle text) w <-> passesGate w text = true.
Proof.
  unfold Spec.triggersPause. rewrite handleSubtitle_pauses_gate.
  destruct (passesGate w text); split; congruence.
Qed.

Lemma handleSubtitle_scheduled :
  scheduledDelay (handleSubtitle text) w
  = if passesGate w text
    then Some (Spec.duration (pause_per_char (settings w)) (min_pause (settings w))
                             (max_pause (settings w)) (Spec.chars text) * 1000)%float
    else None.
Proof.
  unfold scheduledDelay.
  destruct (passesGate w text) eqn:G.
  - rewrite (armedBy_app _
      [mkTimer (next_timer w) ResumeTimer
         (Spec.duration (pause_per_char (settings w)) (min_pause (settings w))
            (max_pause (settings w)) (Spec.chars text) * 1000)%float]);
      [reflexivity |].
    rewrite handleSubtitle_pause by exact G.
    unfold Spec.duration. now rewrite visible_count_trim.
  - rewrite armedBy_same; [reflexivity |].
    destruct (handleSubtitle_no_pause w text G) as [-> | ->]; reflexivity.
Qed.

End PauseFacts.

(* ================================================================== *)
(** * 14. Pause length *)
(* ================================================================== *)

(** C1.  Whenever a subtitle event triggers a pause, the resume is scheduled
    after [min(maxPause, max(minPause, chars * pausePerChar))] seconds
    (times 1000, as the timer counts milliseconds), where [chars] is the
    number of code units left of the subtitle text once whitespace and
    newlines, brace pairs and parenthesis pairs (ASCII and fullwidth) are
    stripped; with 0.06 s per character, floor 0.5 and ceiling 10.0 the
    formula gives 1.2 for 20 characters, 0.5 for 2 and 10.0 for 1000. *)
Theorem C1_pause_duration (w : World) (text : jsstring) :
  Spec.triggersPause (handleSubtitle text) w ->
  scheduledDelay (handleSubtitle text) w
  = Some (Spec.duration (pause_per_char (settings w)) (min_pause (settings w))
                        (max_pause (settings w)) (Spec.chars text) * 1000)%float
  /\ Spec.duration 0.06 0.5 10.0 20 = 1.2%float
  /\ Spec.duration 0.06 0.5 10.0 2 = 0.5%float
  /\ Spec.duration 0.06 0.5 10.0 1000 = 10.0%float.
Proof.
  intros H. apply triggersPause_gate in H.
  rewrite handleSubtitle_scheduled, H.
  repeat split; vm_compute; reflexivity.
Qed.

Lemma C1_pause_duration_witness :
  Spec.triggersPause (handleSubtitle (js "Sore wa chigau yo (sigh)")) readyWorld
  /\ scheduledDelay (handleSubtitle (js "Sore wa chigau yo (sigh)")) readyWorld
     = Some (Spec.duration 0.06 0.5 10.0 14 * 1000)%float.
Proof.
  assert (H : Spec.triggersPause
                (handleSubtitle (js "Sore wa chigau yo (sigh)")) readyWorld)
    by (vm_compute; discriminate).
  split; [exact H |].
  exact (proj1 (C1_pause_duration readyWorld (js "Sore wa chigau yo (sigh)") H)).
Defined.

(* ================================================================== *)
(** * 15. Deduplication and short lines *)
(* ================================================================== *)

Lemma exec_bind {A B} (m : M A) (k : A -> M B) (w : World) :
  exec (bind m k) w = exec (k (fst (m w))) (exec m w).
Proof. unfold exec, bind. destruct (m w). reflexivity. Qed.

Lemma exec_seq (m1 m2 : M unit) (w : World) :
  exec (m1 ;; m2) w = exec m2 (exec m1 w).
Proof. apply exec_bind. Qed.

Lemma passesGate_true (w : World) (text : jsstring) :
  passesGate w text = true <->
  enabled (state w) = true /\ text <> [] /\ trim text <> lastSubText (state w)
  /\ min_chars (settings w) <= Spec.chars text.
Proof.
  unfold passesGate. rewrite !andb_true_iff, !negb_true_iff, !jsstring_eqb_neq.
  rewrite Nat.ltb_ge, visible_count_trim. tauto.
Qed.

(** After the handler has seen [text], the buffer holds its trimmed form,
    unless the handler returned at its first line. *)
Lemma lastSubText_after (w : World) (text : jsstring) :
  enabled (state w) = true -> text <> [] ->
  lastSubText (state (exec (handleSubtitle text) w)) = trim text.
Proof.
  intros He Ht.
  destruct (passesGate w text) eqn:G.
  - now rewrite handleSubtitle_pause.
  - destruct (list_eq_dec N.eq_dec (trim text) (lastSubText (state w))) as [E | E].
    + now rewrite handleSubtitle_dedup.
    + rewrite handleSubtitle_short; trivial.
      destruct (Nat.lt_ge_cases (getVisibleCharCount (trim text)) (min_chars (settings w)))
        as [L | L]; [exact L | exfalso].
      assert (passesGate w text = true); [| congruence].
      apply passesGate_true. now rewrite <- visible_count_trim.
Qed.

(** The second of two identical events changes nothing. *)
Lemma handleSubtitle_repeat (w : World) (text : jsstring) :
  exec (handleSubtitle text) (exec (handleSubtitle text) w)
  = exec (handleSubtitle text) w.
Proof.
  destruct (enabled (state w)) eqn:He.
  - destruct (list_eq_dec N.eq_dec text []) as [Ht | Ht].
    + now rewrite !handleSubtitle_empty.
    + apply handleSubtitle_dedup. now rewrite lastSubText_after.
  - rewrite (handleSubtitle_disabled w text He). exact (handleSubtitle_disabled w text He).
Qed.

Lemma pausesOf_noop (m : M unit) (w : World) :
  exec m w = w -> pausesOf m w = 0.
Proof. intros H. unfold pausesOf. rewrite effectsOf_same; [reflexivity | now rewrite H]. Qed.

(** A too-short line does update the buffer: after ["a"] on a fresh session
    [lastSubText] is ["a"], no longer the empty string. *)
Lemma C2_short_line_counterexample :
  enabled (state readyWorld) = true
  /\ trim shortLine <> lastSubText (state readyWorld)
  /\ Spec.chars shortLine < min_chars (settings readyWorld)
  /\ lastSubText (state (exec (handleSubtitle shortLine) readyWorld))
     <> lastSubText (state readyWorld).
Proof.
  split; [reflexivity |].
  split; [vm_compute; discriminate |].
  split; [vm_compute; lia |].
  vm_compute; discriminate.
Qed.

(** C2 (amended).  A subtitle event whose trimmed text differs from
    [lastSubText] but whose visible length is below [min_chars] triggers no
    pause and arms no timer; it does record the trimmed text in
    [lastSubText] and changes nothing else.  A later repeat of the same short
    line is then a no-op, and a later line that reaches [min_chars] is not
    blocked: it pauses. *)
Theorem C2_short_line (w : World) (text : jsstring) :
  enabled (state w) = true -> text <> [] ->
  trim text <> lastSubText (state w) ->
  Spec.chars text < min_chars (settings w) ->
  pausesOf (handleSubtitle text) w = 0
  /\ armedBy (handleSubtitle text) w = []
  /\ exec (handleSubtitle text) w
     = with_state (set_lastSubText (trim text) (state w)) w
  /\ exec (handleSubtitle text) (exec (handleSubtitle text) w)
     = exec (handleSubtitle text) w
  /\ (forall later : jsstring,
        min_chars (settings w) <= Spec.chars later ->
        pausesOf (handleSubtitle later) (exec (handleSubtitle text) w) = 1).
Proof.
  intros He Ht Hl Hc.
  assert (E : exec (handleSubtitle text) w
              = with_state (set_lastSubText (trim text) (state w)) w)
    by (apply handleSubtitle_short; trivial; now rewrite visible_count_trim).
  assert (G : passesGate w text = false).
  { destruct (passesGate w text) eqn:G; [| reflexivity].
    apply passesGate_true in G. lia. }
  split; [now rewrite handleSubtitle_pauses_gate, G |].
  split; [apply armedBy_same; now rewrite E |].
  split; [exact E |].
  split; [apply handleSubtitle_repeat |].
  intros later Hlater. rewrite handleSubtitle_pauses_gate.
  assert (G' : passesGate (exec (handleSubtitle text) w) later = true);
    [| now rewrite G'].
  apply passesGate_true. rewrite E. cbn.
  repeat split; trivial.
  - intros ->. change (Spec.chars []) with 0 in Hlater. lia.
  - intros Heq. rewrite <- !visible_count_trim in *. rewrite Heq in Hlater. lia.
Qed.

Lemma C2_short_line_witness :
  exec (handleSubtitle shortLine) readyWorld
  = with_state (set_lastSubText (trim shortLine) (state readyWorld)) readyWorld.
Proof.
  refine (proj1 (proj2 (proj2 (C2_short_line readyWorld shortLine _ _ _ _))));
    vm_compute; (reflexivity || discriminate || lia).
Defined.

(* ================================================================== *)
(** * 16. The mutation observer *)
(* ================================================================== *)

Section Observer.

Variable w : World.

Lemma onMutations_user_paused (dom : DomRead) :
  video_paused w = true -> isAutoPaused (state w) = false ->
  exec (onMutations dom) w = w.
Proof.
  intros Hv Ha. unfold_m. cbn. rewrite Hv, Ha. cbn.
  now rewrite orb_true_r.
Qed.

Lemma onMutations_forwards (text : jsstring) :
  video_paused w = false \/ isAutoPaused (state w) = true ->
  exec (onMutations (DomText text)) w = exec (handleSubtitle text) w.
Proof.
  intros H.
  destruct (enabled (state w)) eqn:He;
    [| rewrite handleSubtitle_disabled by exact He;
       unfold onMutations, exec, bind, gets, ret; cbn; now rewrite He].
  destruct text as [| c r];
    [rewrite handleSubtitle_empty by reflexivity;
     unfold onMutations, exec, bind, gets, ret; cbn;
     now destruct (negb (enabled (state w)) || _) |].
  unfold onMutations, exec, bind, gets, ret. cbn [fst snd]. rewrite He.
  assert (G : (video_paused w && negb (isAutoPaused (state w))) = false)
    by (destruct H as [-> | ->]; [reflexivity | apply andb_false_r]).
  rewrite G. cbn [negb orb].
  assert (N : jsstring_eqb (c :: r) [] = false) by now apply jsstring_eqb_neq.
  rewrite N. reflexivity.
Qed.

End Observer.

Lemma pausesOf_ext (m1 m2 : M unit) (w : World) :
  exec m1 w = exec m2 w -> pausesOf m1 w = pausesOf m2 w.
Proof. unfold pausesOf, effectsOf. now intros ->. Qed.

Lemma scheduledDelay_ext (m1 m2 : M unit) (w : World) :
  exec m1 w = exec m2 w -> scheduledDelay m1 w = scheduledDelay m2 w.
Proof. unfold scheduledDelay, armedBy. now intros ->. Qed.

(** A new line while the script holds the pause does pause again: with the
    video auto-paused on ["Hello there"], the observer forwards
    ["General Kenobi"] and the handler calls [video.pause()] and schedules a
    resume for the 13 characters of the new line. *)
Lemma C4_second_pause_counterexample :
  isAutoPaused (state pausedOnce) = true
  /\ video_paused pausedOnce = true
  /\ pausesOf (onMutations (DomText otherLine)) pausedOnce = 1
  /\ scheduledDelay (onMutations (DomText otherLine)) pausedOnce
     = Some (Spec.duration 0.06 0.5 10.0 13 * 1000)%float.
Proof. repeat split; vm_compute; reflexivity. Qed.

(** C4 (amended).  While the script holds the pause ([isAutoPaused]), a
    subtitle event whose trimmed text equals [lastSubText] is a no-op, and an
    event that is empty, arrives while disabled, or has fewer than
    [min_chars] visible characters triggers no pause and schedules nothing.
    Any other event, that is a new text of at least [min_chars] visible
    characters, is handled as in the idle state: the video is paused again
    and a resume is scheduled for the new line's duration. *)
Theorem C4_event_while_auto_paused (w : World) (text : jsstring) :
  isAutoPaused (state w) = true ->
  (trim text = lastSubText (state w) ->
     exec (onMutations (DomText text)) w = w)
  /\ (enabled (state w) = false \/ text = []
      \/ Spec.chars text < min_chars (settings w) ->
        pausesOf (onMutations (DomText text)) w = 0
        /\ scheduledDelay (onMutations (DomText text)) w = None)
  /\ (enabled (state w) = true -> text <> [] ->
      trim text <> lastSubText (state w) ->
      min_chars (settings w) <= Spec.chars text ->
        pausesOf (onMutations (DomText text)) w = 1
        /\ scheduledDelay (onMutations (DomText text)) w
           = Some (Spec.duration (pause_per_char (settings w))
                     (min_pause (settings w)) (max_pause (settings w))
                     (Spec.chars text) * 1000)%float).
Proof.
  intros Ha.
  assert (F : exec (onMutations (DomText text)) w = exec (handleSubtitle text) w)
    by (apply onMutations_forwards; now right).
  rewrite (pausesOf_ext _ _ _ F), (scheduledDelay_ext _ _ _ F), F.
  rewrite handleSubtitle_pauses_gate, handleSubtitle_scheduled.
  split; [apply handleSubtitle_dedup |].
  split.
  - intros H.
    assert (G : passesGate w text = false); [| now rewrite G].
    destruct (passesGate w text) eqn:G; [| reflexivity].
    apply passesGate_true in G. destruct G as (He & Ht & _ & Hc).
    destruct H as [H | [H | H]]; [congruence | congruence | lia].
  - intros He Ht Hl Hc.
    assert (G : passesGate w text = true) by now apply passesGate_true.
    now rewrite G.
Qed.

Lemma C4_event_while_auto_paused_witness :
  pausesOf (onMutations (DomText otherLine)) pausedOnce = 1
  /\ scheduledDelay (onMutations (DomText otherLine)) pausedOnce
     = Some (Spec.duration 0.06 0.5 10.0 13 * 1000)%float.
Proof.
  refine (proj2 (proj2 (C4_event_while_auto_paused pausedOnce otherLine _)) _ _ _ _);
    vm_compute; (reflexivity || discriminate || lia).
Defined.

(** Two identical events need not give a pause at all: the one-letter line
    ["a"] delivered twice to a fresh enabled session pauses zero times. *)
Lemma C5_exactly_one_counterexample :
  pausesOf (handleSubtitle shortLine ;; handleSubtitle shortLine) readyWorld <> 1.
Proof. vm_compute. discriminate. Qed.

(** C5 (amended).  For every string and every state, the second of two
    consecutive subtitle events with the same text is a pure no-op, so the
    two events together give at most one pause: exactly one when the first
    event pauses (the script is enabled, the text is not empty, its trimmed
    form differs from [lastSubText] and it has at least [min_chars] visible
    characters) and none otherwise. *)
Theorem C5_idempotent_dedup (w : World) (s : jsstring) :
  exec (handleSubtitle s) (exec (handleSubtitle s) w) = exec (handleSubtitle s) w
  /\ pausesOf (handleSubtitle s) (exec (handleSubtitle s) w) = 0
  /\ pausesOf (handleSubtitle s ;; handleSubtitle s) w
     = pausesOf (handleSubtitle s) w
  /\ pausesOf (handleSubtitle s ;; handleSubtitle s) w <= 1
  /\ (pausesOf (handleSubtitle s ;; handleSubtitle s) w = 1 <->
      enabled (state w) = true /\ s <> [] /\ trim s <> lastSubText (state w)
      /\ min_chars (settings w) <= Spec.chars s).
Proof.
  assert (R := handleSubtitle_repeat w s).
  assert (E : pausesOf (handleSubtitle s ;; handleSubtitle s) w
              = pausesOf (handleSubtitle s) w).
  { unfold pausesOf, effectsOf. now rewrite exec_seq, R. }
  split; [exact R |].
  split; [now apply pausesOf_noop |].
  split; [exact E |].
  rewrite E, handleSubtitle_pauses_gate, <- passesGate_true.
  destruct (passesGate w s); split; (lia || (split; congruence)).
Qed.

(** C8.  A mutation batch that arrives while the video is paused and the
    script does not hold the pause is dropped by the observer: whatever the
    DOM shows, the world is unchanged, so no subtitle event reaches the
    handler, no pause is triggered and no timer is set. *)
Theorem C8_user_pause_respected (w : World) (dom : DomRead) :
  video_paused w = true -> isAutoPaused (state w) = false ->
  exec (onMutations dom) w = w
  /\ pausesOf (onMutations dom) w = 0
  /\ armedBy (onMutations dom) w = [].
Proof.
  intros Hv Ha.
  assert (E := onMutations_user_paused w dom Hv Ha).
  split; [exact E |].
  split; [now apply pausesOf_noop | apply armedBy_same; now rewrite E].
Qed.

Lemma C8_user_pause_respected_witness :
  exec (onMutations (DomText longLine)) userPaused = userPaused
  /\ pausesOf (onMutations (DomText longLine)) userPaused = 0
  /\ armedBy (onMutations (DomText longLine)) userPaused = [].
Proof.
  apply (C8_user_pause_respected userPaused (DomText longLine)); reflexivity.
Defined.

(* ================================================================== *)
(** * 17. The resume action *)
(* ================================================================== *)

Lemma resumePlayback_world (w : World) (outcome : Promise) :
  exec (resumePlayback outcome) w = resumedWorld w outcome.
Proof.
  unfold resumedWorld. destruct_world w.
  unfold_m. cbn.
  destruct timerId0, hs, outcome; reflexivity.
Qed.

(** C9.  A rejected [play()] is absorbed by the empty [catch] handler.  For
    every invocation of the resume action whose play request is rejected:
    the only effect added is the one request itself (no notification, no
    second request), no timer is set, and the state is the one the action
    had already written (timer handle cleared, [isAutoPaused] and
    [isPauseLocked] false), the same as when the request succeeds; only the
    video stays as it was. *)
Theorem C9_rejected_play_absorbed (w : World) :
  effectsOf (resumePlayback Rejected) w = [VideoPlay]
  /\ armed (exec (resumePlayback Rejected) w) = armed w
  /\ timers (exec (resumePlayback Rejected) w)
     = withoutHandle (timerId (state w)) (timers w)
  /\ timerId (state (exec (resumePlayback Rejected) w)) = None
  /\ isAutoPaused (state (exec (resumePlayback Rejected) w)) = false
  /\ isPauseLocked (state (exec (resumePlayback Rejected) w)) = false
  /\ state (exec (resumePlayback Rejected) w)
     = state (exec (resumePlayback Fulfilled) w)
  /\ video_paused (exec (resumePlayback Rejected) w) = video_paused w
  /\ exec (resumePlayback Rejected) w
     = with_video_paused (video_paused w) (exec (resumePlayback Fulfilled) w).
Proof.
  split; [apply effectsOf_app; now rewrite resumePlayback_world |].
  rewrite !resumePlayback_world. repeat split.
Qed.

(* ================================================================== *)
(** * 18. The key handler *)
(* ================================================================== *)

Section KeyHandler.

Variable w : World.
Variable e : KeyEvent.
Variable outcome : Promise.

Lemma onKeydown_lock :
  enabled (state w) = true -> isAutoPaused (state w) = true ->
  isPauseLocked (state w) = false ->
  isInteractionKey e = true -> matchesHotkey e (hotkey (settings w)) = false ->
  exec (onKeydown e outcome) w = lockedWorld w.
Proof.
  intros He Ha Hl Hi Hh. unfold lockedWorld, uiHiddenRestored, wrapperRestored, osdTimer.
  destruct_world w. subst.
  destruct uiHidden0, pf; unfold_m; cbn; rewrite Hh, Hi; cbn;
    destruct timerId0, osd_hideTimer0; reflexivity.
Qed.

Lemma onKeydown_release :
  enabled (state w) = true -> isAutoPaused (state w) = true ->
  isPauseLocked (state w) = true ->
  isInteractionKey e = true -> matchesHotkey e (hotkey (settings w)) = false ->
  exec (onKeydown e outcome) w = releasedWorld w outcome.
Proof.
  intros He Ha Hl Hi Hh. unfold releasedWorld, uiHiddenRestored, wrapperRestored.
  destruct_world w. subst.
  destruct uiHidden0, pf; unfold_m; cbn; rewrite Hh, Hi; cbn;
    destruct timerId0, hs, outcome; reflexivity.
Qed.

Lemma onKeydown_switch_off :
  enabled (state w) = true -> isAutoPaused (state w) = true ->
  matchesHotkey e (hotkey (settings w)) = true ->
  exec (onKeydown e outcome) w = switchedOffWorld w outcome.
Proof.
  intros He Ha Hh. unfold switchedOffWorld, uiHiddenRestored, wrapperRestored, osdTimer.
  destruct_world w. subst.
  destruct uiHidden0, pf; unfold_m; cbn; rewrite Hh; cbn;
    destruct timerId0, osd_hideTimer0, hs, outcome; reflexivity.
Qed.

End KeyHandler.

Lemma withoutHandle_incl (h : option positive) (ts : list Timer) (t : Timer) :
  In t (withoutHandle h ts) -> In t ts.
Proof.
  destruct h; cbn; [| trivial]. intros H. now apply filter_In in H.
Qed.

Lemma withoutHandle_tid (id : positive) (ts : list Timer) (t : Timer) :
  In t (withoutHandle (Some id) ts) -> tid t <> id.
Proof.
  cbn. intros H. apply filter_In in H as [_ H].
  apply negb_true_iff, Pos.eqb_neq in H. exact H.
Qed.

(** No pending resume timer carries the handle [id] when every pending
    resume timer survived the clearing of [id]. *)
Lemma resume_handle_cleared (id : positive) (ts : list Timer) (v : World) :
  (forall t, In t (timers v) -> kind t = ResumeTimer ->
             In t (withoutHandle (Some id) ts)) ->
  ~ In id (map tid (resumeTimers v)).
Proof.
  intros H I. apply in_map_iff in I as (t & E & I).
  unfold resumeTimers in I. apply filter_In in I as [I K].
  unfold is_resume in K. destruct (kind t) eqn:Kt; try discriminate.
  now apply (withoutHandle_tid id ts t (H t I Kt)).
Qed.

(** No resume timer is left in [v] when every resume timer of [w] was the
    one [state.timerId] names and every resume timer of [v] is one of [w]
    that survived the clearing of that handle. *)
Lemma no_resume_timer_left (w v : World) :
  (forall t, In t (resumeTimers w) -> timerId (state w) = Some (tid t)) ->
  (forall t, In t (timers v) -> is_resume t = true ->
             In t (withoutHandle (timerId (state w)) (timers w))) ->
  resumeTimers v = [].
Proof.
  intros Hone Hsub.
  destruct (resumeTimers v) as [| t r] eqn:E; [reflexivity | exfalso].
  assert (I : In t (resumeTimers v)) by (rewrite E; now left).
  unfold resumeTimers in I. apply filter_In in I as [I K].
  specialize (Hsub t I K).
  assert (J : In t (resumeTimers w)).
  { unfold resumeTimers. apply filter_In. split; [| exact K].
    now apply withoutHandle_incl in Hsub. }
  specialize (Hone t J). rewrite Hone in Hsub.
  now apply withoutHandle_tid in Hsub.
Qed.

(** The toggle chord comes first in the listener.  With the space bar
    recorded as the chord, Space during an auto-pause switches the script off
    and resumes instead of locking; so does Alt+P, the default chord, whose
    key is ['p']. *)
Lemma C6_toggle_chord_counterexample :
  (Spec.AutoPaused spaceChordSession
   /\ isInteractionKey spaceKey = true
   /\ ~ Spec.Locked (exec (onKeydown spaceKey Fulfilled) spaceChordSession)
   /\ effectsOf (onKeydown spaceKey Fulfilled) spaceChordSession
      = [Notify "Primed Listening: OFF"; VideoPlay])
  /\
  (Spec.AutoPaused pausedOnce
   /\ isInteractionKey altP = true
   /\ ~ Spec.Locked (exec (onKeydown altP Fulfilled) pausedOnce)
   /\ effectsOf (onKeydown altP Fulfilled) pausedOnce
      = [Notify "Primed Listening: OFF"; VideoPlay]).
Proof.
  split; (split; [repeat split |]); (split; [reflexivity |]);
    (split; [| vm_compute; reflexivity]);
    intros (H & _); vm_compute in H; discriminate.
Qed.

(** C6 (amended).  In an auto-paused state (enabled, [isAutoPaused], not
    locked) a press of an interaction key (code [Space], or key [k] or [p])
    that is not the toggle chord, which the listener checks first, cancels
    the resume timer of [state.timerId] and clears the handle, sets
    [isPauseLocked], swallows the key, shows "|| Pause Locked", and neither
    calls [play()] nor sets a resume timer: the machine is Locked, and no
    resume timer is pending if the one in [state.timerId] was the only one.
    A second such press swallows the key, calls [play()] at once and leaves
    the machine Idle; the video plays if the request is honoured. *)
Theorem C6_lock_then_release (w : World) (e1 e2 : KeyEvent) (o1 o2 : Promise) :
  Spec.AutoPaused w ->
  isInteractionKey e1 = true -> matchesHotkey e1 (hotkey (settings w)) = false ->
  isInteractionKey e2 = true -> matchesHotkey e2 (hotkey (settings w)) = false ->
  let w1 := exec (onKeydown e1 o1) w in
  let w2 := exec (onKeydown e2 o2) w1 in
  (Spec.Locked w1
   /\ timerId (state w1) = None
   /\ (forall id, timerId (state w) = Some id -> ~ In id (map tid (resumeTimers w1)))
   /\ ((forall t, In t (resumeTimers w) -> timerId (state w) = Some (tid t)) ->
       resumeTimers w1 = [])
   /\ effectsOf (onKeydown e1 o1) w = [KeySwallowed; Notify "|| Pause Locked"]
   /\ armedBy (onKeydown e1 o1) w = []
   /\ video_paused w1 = video_paused w)
  /\
  (effectsOf (onKeydown e2 o2) w1 = [KeySwallowed; VideoPlay]
   /\ Spec.Idle w2
   /\ enabled (state w2) = true
   /\ armedBy (onKeydown e2 o2) w1 = []
   /\ video_paused w2
      = match o2 with Fulfilled => false | Rejected => video_paused w end).
Proof.
  intros (He & Ha & Hl) Hi1 Hh1 Hi2 Hh2 w1 w2.
  assert (E1 : exec (onKeydown e1 o1) w = lockedWorld w) by now apply onKeydown_lock.
  assert (E2 : exec (onKeydown e2 o2) (lockedWorld w)
               = releasedWorld (lockedWorld w) o2)
    by (apply onKeydown_release; cbn; trivial).
  subst w1 w2. unfold effectsOf, armedBy. rewrite !E1, !E2.
  split.
  - split; [repeat split; cbn; trivial |].
    split; [reflexivity |].
    split.
    { intros id Hid. apply (resume_handle_cleared id (timers w)).
      cbn [timers lockedWorld]. intros t I K.
      apply in_app_iff in I as [I | [<- | []]]; [| discriminate].
      apply withoutHandle_incl in I. now rewrite Hid in I. }
    split.
    { intros Hone. apply (no_resume_timer_left w _ Hone).
      cbn [timers lockedWorld]. intros t I K.
      apply in_app_iff in I as [I | [<- | []]]; [| discriminate].
      now apply withoutHandle_incl in I. }
    split.
    { cbn [trace lockedWorld]. now rewrite <- app_assoc, skipn_length_app. }
    split.
    { cbn [armed lockedWorld]. now rewrite skipn_length_app. }
    reflexivity.
  - split.
    { cbn [trace releasedWorld]. now rewrite <- app_assoc, skipn_length_app. }
    split; [repeat split |].
    split; [exact He |].
    split; [cbn [armed releasedWorld]; now rewrite skipn_all |].
    reflexivity.
Qed.

Lemma C6_lock_then_release_witness :
  Spec.Locked (exec (onKeydown spaceKey Fulfilled) pausedOnce)
  /\ Spec.Idle (exec (onKeydown plainK Fulfilled)
                  (exec (onKeydown spaceKey Fulfilled) pausedOnce)).
Proof.
  assert (A : Spec.AutoPaused pausedOnce) by (repeat split).
  pose proof (C6_lock_then_release pausedOnce spaceKey plainK Fulfilled Fulfilled A
                eq_refl eq_refl eq_refl eq_refl) as [L R].
  split; [exact (proj1 L) | exact (proj1 (proj2 R))].
Defined.

(** C7.  When the toggle chord switches the script off while it holds a
    pause (AutoPaused or Locked), the listener resumes at once, whatever
    timers are pending and whatever their delays: the resume timer of
    [state.timerId] is cancelled and the handle cleared, [isAutoPaused] and
    [isPauseLocked] become false, [play()] is called, and the subtitles end
    up forced visible.  No resume timer is left pending if the one in
    [state.timerId] was the only one, and the video plays if the request is
    honoured. *)
Theorem C7_disable_resumes (w : World) (e : KeyEvent) (o : Promise) :
  enabled (state w) = true -> isAutoPaused (state w) = true ->
  matchesHotkey e (hotkey (settings w)) = true ->
  let w' := exec (onKeydown e o) w in
  enabled (state w') = false
  /\ Spec.Idle w'
  /\ (forall id, timerId (state w) = Some id -> ~ In id (map tid (resumeTimers w')))
  /\ ((forall t, In t (resumeTimers w) -> timerId (state w) = Some (tid t)) ->
      resumeTimers w' = [])
  /\ effectsOf (onKeydown e o) w = [Notify "Primed Listening: OFF"; VideoPlay]
  /\ armedBy (onKeydown e o) w = []
  /\ subs w' = PlShowSub
  /\ video_paused w'
     = match o with Fulfilled => false | Rejected => video_paused w end.
Proof.
  intros He Ha Hh w'.
  assert (E : exec (onKeydown e o) w = switchedOffWorld w o)
    by now apply onKeydown_switch_off.
  subst w'. unfold effectsOf, armedBy. rewrite !E.
  split; [reflexivity |].
  split; [repeat split |].
  split.
  { intros id Hid.
    apply (resume_handle_cleared id
             (withoutHandle (osd_hideTimer w) (timers w) ++ [osdTimer w])).
    cbn [timers switchedOffWorld]. intros t I _. now rewrite Hid in I. }
  split.
  { intros Hone. apply (no_resume_timer_left w _ Hone).
    cbn [timers switchedOffWorld]. intros t I K.
    destruct (timerId (state w)) as [id |] eqn:T; cbn [withoutHandle] in *.
    - apply filter_In in I as [I N]. apply filter_In. split; [| exact N].
      apply in_app_iff in I as [I | [<- | []]]; [| discriminate].
      now apply withoutHandle_incl in I.
    - apply in_app_iff in I as [I | [<- | []]]; [| discriminate].
      now apply withoutHandle_incl in I. }
  split.
  { cbn [trace switchedOffWorld]. now rewrite <- app_assoc, skipn_length_app. }
  split.
  { cbn [armed switchedOffWorld]. now rewrite skipn_length_app. }
  split; reflexivity.
Qed.

Lemma C7_disable_resumes_witness :
  enabled (state (exec (onKeydown altP Fulfilled) pausedOnce)) = false
  /\ Spec.Idle (exec (onKeydown altP Fulfilled) pausedOnce)
  /\ subs (exec (onKeydown altP Fulfilled) pausedOnce) = PlShowSub
  /\ video_paused (exec (onKeydown altP Fulfilled) pausedOnce) = false.
Proof.
  pose proof (C7_disable_resumes pausedOnce altP Fulfilled eq_refl eq_refl eq_refl)
    as (A & B & _ & _ & _ & _ & C & D).
  repeat split; try exact A; try exact C; try exact D; apply B.
Defined.

(* ================================================================== *)
(** * 19. Overlapping resume timers *)
(* ================================================================== *)

(** C3 (the code at the failing input).  After ["Hello there"] and then
    ["General Kenobi"] while the first pause is held, a reachable world has
    two resume timers pending, handles 2 and 3: [handleSubtitle] stored the
    new handle over the old one without clearing it.  [state.timerId] knows
    only handle 3, so locking the pause cancels that one alone, and the
    forgotten timer still comes due and resumes the video out of the locked
    pause. *)
Theorem C3_overlapping_resume_timers :
  reachable pausedTwice
  /\ map tid (resumeTimers pausedOnce) = [2%positive]
  /\ map tid (resumeTimers pausedTwice) = [2%positive; 3%positive]
  /\ timerId (state pausedTwice) = Some 3%positive
  /\ Spec.Locked (exec (onKeydown spaceKey Fulfilled) pausedTwice)
  /\ map tid (resumeTimers (exec (onKeydown spaceKey Fulfilled) pausedTwice))
     = [2%positive]
  /\ video_paused (run [EvKeydown spaceKey Fulfilled; EvTimer 2 Fulfilled] pausedTwice)
     = false
  /\ isPauseLocked
       (state (run [EvKeydown spaceKey Fulfilled; EvTimer 2 Fulfilled] pausedTwice))
     = false.
Proof.
  split.
  - exists Netflix,
      [EvSettingsLoaded kikuDefaults; EvMutations (DomText longLine);
       EvMutations (DomText otherLine)].
    vm_compute. reflexivity.
  - vm_compute. repeat split; reflexivity.
Qed.

(* ================================================================== *)
(** * 20. The two content scripts compared *)
(* ================================================================== *)

Section FloatFacts.

Lemma SFcompare_refl (a : spec_float) :
  a <> S754_nan -> SFcompare a a = Some Eq.
Proof.
  destruct a as [s | s | | s m e]; cbn; intros H;
    [reflexivity | now destruct s | congruence |].
  rewrite Z.compare_refl.
  assert (Pos.compare_cont Eq m m = Eq) by apply Pos.compare_cont_refl.
  destruct s; rewrite H0; reflexivity.
Qed.

Lemma SFcompare_Lt_swap (a b : spec_float) :
  SFcompare a b = Some Lt -> SFcompare b a = Some Gt.
Proof.
  destruct a as [s1 | s1 | | s1 m1 e1], b as [s2 | s2 | | s2 m2 e2]; cbn;
    try discriminate;
    try (destruct s1; discriminate || reflexivity);
    try (destruct s2; discriminate || reflexivity);
    try (destruct s1, s2; discriminate || reflexivity).
  assert (A : Pos.compare_cont Eq m2 m1 = CompOpp (Pos.compare_cont Eq m1 m2))
    by (symmetry; apply (Pos.compare_cont_antisym m1 m2 Eq)).
  rewrite (Z.compare_antisym e1 e2), A.
  destruct s1, s2; try discriminate; try reflexivity;
    destruct (e1 ?= e2)%Z; cbn; try discriminate; try reflexivity;
    destruct (Pos.compare_cont Eq m1 m2); cbn; congruence.
Qed.

Lemma ltb_not_nan (x y : float) :
  (x <? y)%float = true -> PrimFloat.is_nan x = false /\ PrimFloat.is_nan y = false.
Proof.
  rewrite FloatAxioms.ltb_spec. unfold SFltb, PrimFloat.is_nan. rewrite !FloatAxioms.eqb_spec. unfold SFeqb.
  intros H.
  destruct (SFcompare (Prim2SF x) (Prim2SF y)) as [[| |] |] eqn:C; try discriminate.
  assert (Prim2SF x <> S754_nan /\ Prim2SF y <> S754_nan) as [Nx Ny].
  { destruct (Prim2SF x), (Prim2SF y); cbn in C; split; congruence. }
  now rewrite !SFcompare_refl.
Qed.

Lemma ltb_asym (x y : float) :
  (x <? y)%float = true -> (y <? x)%float = false.
Proof.
  rewrite !FloatAxioms.ltb_spec. unfold SFltb.
  destruct (SFcompare (Prim2SF x) (Prim2SF y)) as [[| |] |] eqn:C; try discriminate.
  now rewrite (SFcompare_Lt_swap _ _ C).
Qed.

(** Below the ceiling, [Math.min] returns the duration itself. *)
Lemma Math_min_below (cap d : float) :
  (d <? cap)%float = true -> Math_min cap d = d.
Proof.
  intros H. unfold Math_min.
  destruct (ltb_not_nan _ _ H) as [-> ->]. cbn.
  now rewrite (ltb_asym _ _ H), H.
Qed.

End FloatFacts.

Section Variants.

Variable w : World.
Variable text : jsstring.

Lemma legacy_pause :
  passesGate w text = true ->
  exec (Legacy.handleSubtitle text) w
  = legacyPausedWorld w text
      (Math_max (min_pause (settings w))
         (of_length (getVisibleCharCount (trim text)) * pause_per_char (settings w))).
Proof.
  unfold passesGate. intros H.
  apply andb_true_iff in H as [H Hc]. apply andb_true_iff in H as [H Hl].
  apply andb_true_iff in H as [He Ht].
  apply negb_true_iff in Hc, Hl, Ht.
  unfold legacyPausedWorld. destruct_world w.
  unfold_m. cbn. rewrite He, Ht. cbn. rewrite Hl. cbn. rewrite Hc. cbn.
  destruct hs; reflexivity.
Qed.

Lemma legacy_no_pause :
  passesGate w text = false ->
  exec (Legacy.handleSubtitle text) w = exec (handleSubtitle text) w.
Proof.
  unfold passesGate. intros H. destruct_world w.
  unfold_m. cbn.
  destruct enabled0; [| reflexivity].
  destruct (jsstring_eqb text []); [reflexivity |]. cbn.
  destruct (jsstring_eqb (trim text) lastSubText0); [reflexivity |]. cbn.
  cbn in H. apply negb_false_iff in H. now rewrite H.
Qed.

Lemma legacy_pauses_gate :
  pausesOf (Legacy.handleSubtitle text) w = if passesGate w text then 1 else 0.
Proof.
  destruct (passesGate w text) eqn:G.
  - unfold pausesOf. rewrite (effectsOf_app _ _ [VideoPause]); [reflexivity |].
    now rewrite legacy_pause.
  - rewrite (pausesOf_ext _ _ _ (legacy_no_pause G)).
    now rewrite handleSubtitle_pauses_gate, G.
Qed.

Lemma legacy_scheduled :
  scheduledDelay (Legacy.handleSubtitle text) w
  = if passesGate w text
    then Some (Math_max (min_pause (settings w))
                 (of_length (Spec.chars text) * pause_per_char (settings w))
               * 1000)%float
    else None.
Proof.
  destruct (passesGate w text) eqn:G.
  - unfold scheduledDelay.
    rewrite (armedBy_app _ _
      [mkTimer (next_timer w) ResumeTimer
         (Math_max (min_pause (settings w))
            (of_length (Spec.chars text) * pause_per_char (settings w)) * 1000)%float]);
      [reflexivity |].
    rewrite legacy_pause by exact G. now rewrite visible_count_trim.
  - rewrite (scheduledDelay_ext _ _ _ (legacy_no_pause G)).
    now rewrite handleSubtitle_scheduled, G.
Qed.

End Variants.

(** The two scripts schedule different pauses for a long line: with the
    default settings a line of 200 letters pauses 10 seconds in the current
    script and 12 seconds in the earlier one. *)
Lemma C10_variants_differ_counterexample :
  scheduledDelay (handleSubtitle wallOfText) readyWorld = Some 10000%float
  /\ scheduledDelay (Legacy.handleSubtitle wallOfText) readyWorld = Some 12000%float
  /\ scheduledDelay (handleSubtitle wallOfText) readyWorld
     <> scheduledDelay (Legacy.handleSubtitle wallOfText) readyWorld.
Proof.
  assert (A : scheduledDelay (handleSubtitle wallOfText) readyWorld = Some 10000%float)
    by (vm_compute; reflexivity).
  assert (B : scheduledDelay (Legacy.handleSubtitle wallOfText) readyWorld
              = Some 12000%float)
    by (vm_compute; reflexivity).
  repeat split; trivial.
  rewrite A, B. intros H.
  assert (C : (10000 <? 11000)%float = (12000 <? 11000)%float) by congruence.
  vm_compute in C. discriminate.
Qed.

(** C10 (amended).  The two content scripts pause on exactly the same
    subtitle events.  When they pause, the earlier script schedules
    [d = max(min_pause, chars * pause_per_char)] seconds and the current one
    [min(max_pause, d)]; the two delays are the same whenever [d] is below
    [max_pause].  When they do not pause, neither schedules anything. *)
Theorem C10_variants_agree_below_cap (w : World) (text : jsstring) :
  let d := Math_max (min_pause (settings w))
             (of_length (Spec.chars text) * pause_per_char (settings w)) in
  pausesOf (Legacy.handleSubtitle text) w = pausesOf (handleSubtitle text) w
  /\ (Spec.triggersPause (handleSubtitle text) w ->
        scheduledDelay (Legacy.handleSubtitle text) w = Some (d * 1000)%float
        /\ scheduledDelay (handleSubtitle text) w
           = Some (Math_min (max_pause (settings w)) d * 1000)%float)
  /\ (~ Spec.triggersPause (handleSubtitle text) w ->
        scheduledDelay (Legacy.handleSubtitle text) w = None
        /\ scheduledDelay (handleSubtitle text) w = None)
  /\ ((d <? max_pause (settings w))%float = true ->
        scheduledDelay (handleSubtitle text) w
        = scheduledDelay (Legacy.handleSubtitle text) w).
Proof.
  intros d. rewrite triggersPause_gate.
  rewrite legacy_pauses_gate, handleSubtitle_pauses_gate,
    legacy_scheduled, handleSubtitle_scheduled.
  unfold Spec.duration. fold d.
  destruct (passesGate w text).
  - repeat split; try congruence.
    intros H. now rewrite (Math_min_below _ _ H).
  - repeat split; congruence.
Qed.

(* ================================================================== *)
(** * 21. More on the visible length *)
(* ================================================================== *)

Section VisibleLength.

Lemma length_replace_class (p : code_unit -> bool) (s : jsstring) :
  List.length (replace_class p s) <= List.length s.
Proof. apply filter_length_le. Qed.

Lemma length_replace_pairs_from (pairs : list (code_unit * code_unit)) (s : jsstring) :
  forall skip, List.length (replace_pairs_from pairs skip s) <= List.length s.
Proof.
  induction s as [| c r IH]; intros skip; [reflexivity |].
  cbn [replace_pairs_from]. destruct skip as [| k].
  - match goal with
    | |- context [match ?x with Some _ => _ | None => _ end] => destruct x
    end; cbn [List.length]; [etransitivity; [apply IH | lia] |].
    apply le_n_S, IH.
  - etransitivity; [apply IH | cbn; lia].
Qed.

Lemma replace_class_id (p : code_unit -> bool) (s : jsstring) :
  Forall (fun c => p c = false) s -> replace_class p s = s.
Proof.
  unfold replace_class. induction 1 as [| c r Hc _ IH]; [reflexivity |].
  cbn [filter]. rewrite Hc. cbn. now rewrite IH.
Qed.

Lemma replace_pairs_from_skip (pairs : list (code_unit * code_unit)) (l b : jsstring) :
  replace_pairs_from pairs (List.length l) (l ++ b) = replace_pairs_from pairs 0 b.
Proof. induction l as [| c r IH]; [reflexivity | exact IH]. Qed.

Lemma lazy_until_found (close : code_unit) (body b : jsstring) :
  Forall (fun c => (c =? close)%N = false /\ isLineTerminator c = false) body ->
  lazy_until close (body ++ close :: b) = Some (S (List.length body)).
Proof.
  induction 1 as [| c r [Hc Hl] _ IH]; cbn [app lazy_until List.length].
  - now rewrite N.eqb_refl.
  - rewrite Hc, Hl, IH. reflexivity.
Qed.

Lemma isPlain_spec (c : code_unit) :
  isPlain c = true ->
  isWhiteSpace c = false /\ isLineTerminator c = false
  /\ (c =? LBRACE)%N = false /\ (c =? RBRACE)%N = false
  /\ (c =? LPAREN)%N = false /\ (c =? RPAREN)%N = false
  /\ (c =? FW_LPAREN)%N = false /\ (c =? FW_RPAREN)%N = false.
Proof.
  unfold isPlain, isDelimiter, isOpener. intros H.
  apply andb_true_iff in H as [W D]. apply negb_true_iff in W, D.
  apply orb_false_iff in D as [O C].
  apply orb_false_iff in O as [O O3]. apply orb_false_iff in O as [O1 O2].
  apply orb_false_iff in C as [C C3]. apply orb_false_iff in C as [C1 C2].
  assert (isLineTerminator c = false).
  { unfold isWhiteSpace in W. now apply orb_false_iff in W as [_ W]. }
  repeat split; assumption.
Qed.

(** The brace pass keeps text that has no opening brace. *)
Lemma brace_pass_id (s : jsstring) :
  Forall (fun c => (c =? LBRACE)%N = false) s ->
  replace_pairs [(LBRACE, RBRACE)] s = s.
Proof.
  unfold replace_pairs. induction 1 as [| c r Hc _ IH]; [reflexivity |].
  cbn [replace_pairs_from]. rewrite Hc. now rewrite IH.
Qed.

(** The parenthesis pass keeps text that has no opening parenthesis. *)
Lemma paren_pass_id (s : jsstring) :
  Forall (fun c => (c =? LPAREN)%N = false /\ (c =? FW_LPAREN)%N = false) s ->
  replace_pairs [(LPAREN, RPAREN); (FW_LPAREN, FW_RPAREN)] s = s.
Proof.
  unfold replace_pairs. induction 1 as [| c r [H1 H2] _ IH]; [reflexivity |].
  cbn [replace_pairs_from]. rewrite H1, H2. now rewrite IH.
Qed.

Lemma brace_pass_strips (a body b : jsstring) :
  Forall (fun c => (c =? LBRACE)%N = false) a ->
  Forall (fun c => (c =? RBRACE)%N = false /\ isLineTerminator c = false) body ->
  replace_pairs [(LBRACE, RBRACE)] (a ++ LBRACE :: body ++ RBRACE :: b)
  = a ++ replace_pairs [(LBRACE, RBRACE)] b.
Proof.
  intros Ha Hb. unfold replace_pairs.
  induction Ha as [| c r Hc _ IH]; cbn [app replace_pairs_from].
  - change (LBRACE =? LBRACE)%N with true. cbn iota.
    rewrite (lazy_until_found RBRACE body b Hb).
    replace (body ++ RBRACE :: b) with ((body ++ [RBRACE]) ++ b)
      by now rewrite <- app_assoc.
    replace (S (List.length body)) with (List.length (body ++ [RBRACE]))
      by (rewrite length_app; cbn; lia).
    apply replace_pairs_from_skip.
  - rewrite Hc. now rewrite IH.
Qed.

Lemma paren_pass_strips (o cl : code_unit) (a body b : jsstring) :
  (o, cl) = (LPAREN, RPAREN) \/ (o, cl) = (FW_LPAREN, FW_RPAREN) ->
  Forall (fun c => (c =? LPAREN)%N = false /\ (c =? FW_LPAREN)%N = false) a ->
  Forall (fun c => (c =? cl)%N = false /\ isLineTerminator c = false) body ->
  replace_pairs [(LPAREN, RPAREN); (FW_LPAREN, FW_RPAREN)] (a ++ o :: body ++ cl :: b)
  = a ++ replace_pairs [(LPAREN, RPAREN); (FW_LPAREN, FW_RPAREN)] b.
Proof.
  intros Ho Ha Hb. unfold replace_pairs.
  induction Ha as [| c r [H1 H2] _ IH]; cbn [app replace_pairs_from].
  - replace (body ++ cl :: b) with ((body ++ [cl]) ++ b) by now rewrite <- app_assoc.
    assert (L : lazy_until cl ((body ++ [cl]) ++ b) = Some (List.length (body ++ [cl]))).
    { rewrite <- app_assoc. cbn [app]. rewrite (lazy_until_found cl body b Hb).
      rewrite length_app. cbn. f_equal. lia. }
    destruct Ho as [E | E]; inversion E; subst o cl.
    + change (LPAREN =? LPAREN)%N with true. cbn iota. rewrite L.
      apply replace_pairs_from_skip.
    + change (FW_LPAREN =? LPAREN)%N with false.
      change (FW_LPAREN =? FW_LPAREN)%N with true. cbn iota. rewrite L.
      apply replace_pairs_from_skip.
  - rewrite H1, H2. now rewrite IH.
Qed.

End VisibleLength.

(** X1.  The visible length never exceeds the length of the text: each of
    the four replacements only deletes code units. *)
Theorem X1_visible_count_bounded (text : jsstring) :
  getVisibleCharCount text <= List.length text.
Proof.
  destruct text as [| c r]; [reflexivity |].
  unfold getVisibleCharCount, visibleText, replace_pairs.
  etransitivity; [apply length_replace_pairs_from |].
  etransitivity; [apply length_replace_pairs_from |].
  etransitivity; apply length_replace_class.
Qed.

Lemma not_whitespace_not_newline (c : code_unit) :
  isWhiteSpace c = false -> ((c =? 10) || (c =? 13))%N = false.
Proof.
  intros H. destruct ((c =? 10) || (c =? 13))%N eqn:E; [| reflexivity].
  apply newline_is_whitespace in E. congruence.
Qed.

(** X2.  A text with no whitespace and no opening brace or parenthesis
    (ASCII or fullwidth) is counted in full.  Square brackets are such
    characters: ["[Music]"] counts 7. *)
Theorem X2_plain_text_counted_in_full (text : jsstring) :
  Forall (fun c => isWhiteSpace c = false /\ isOpener c = false) text ->
  getVisibleCharCount text = List.length text.
Proof.
  intros H. rewrite visible_count_spec. unfold Spec.chars, Spec.stripped.
  rewrite replace_class_id by (eapply Forall_impl; [| exact H]; now intros c [? _]).
  rewrite brace_pass_id.
  - rewrite paren_pass_id; [reflexivity |].
    eapply Forall_impl; [| exact H]. intros c [_ O]. unfold isOpener in O.
    apply orb_false_iff in O as [O O3]. apply orb_false_iff in O as [_ O2]. now split.
  - eapply Forall_impl; [| exact H]. intros c [_ O]. unfold isOpener in O.
    apply orb_false_iff in O as [O _]. now apply orb_false_iff in O as [O _].
Qed.

Lemma X2_plain_text_counted_in_full_witness :
  getVisibleCharCount (js "[Music]") = 7.
Proof.
  apply (X2_plain_text_counted_in_full (js "[Music]")).
  repeat constructor.
Defined.

Lemma Forall_plain (P : code_unit -> Prop) (s : jsstring) :
  (forall c, isPlain c = true -> P c) ->
  Forall (fun c => isPlain c = true) s -> Forall P s.
Proof. intros HP H. eapply Forall_impl; [| exact H]. exact HP. Qed.

(** X3.  An annotation in braces, parentheses or fullwidth parentheses
    adds nothing to the count: around and inside it plain characters (no
    whitespace, no delimiter), the count is that of the text before plus
    that of the text after. *)
Theorem X3_annotation_adds_nothing (o cl : code_unit) (a body b : jsstring) :
  In (o, cl) annotationPairs ->
  Forall (fun c => isPlain c = true) a ->
  Forall (fun c => isPlain c = true) body ->
  Forall (fun c => isPlain c = true) b ->
  getVisibleCharCount (a ++ o :: body ++ cl :: b) = List.length a + List.length b.
Proof.
  intros Hp Ha Hbody Hb.
  rewrite visible_count_spec. unfold Spec.chars, Spec.stripped.
  assert (W : isWhiteSpace o = false /\ isWhiteSpace cl = false).
  { destruct Hp as [E | [E | [E | []]]]; inversion E; subst; split; reflexivity. }
  destruct W as [Wo Wc].
  rewrite replace_class_id.
  2:{ apply Forall_app. split; [apply (Forall_plain _ a); trivial; intros c Hc;
                                 now apply isPlain_spec in Hc |].
      constructor; [exact Wo |]. apply Forall_app. split;
        [apply (Forall_plain _ body); trivial; intros c Hc; now apply isPlain_spec in Hc |].
      constructor; [exact Wc |].
      apply (Forall_plain _ b); trivial; intros c Hc; now apply isPlain_spec in Hc. }
  assert (NoBrace : forall s, Forall (fun c => isPlain c = true) s ->
                              Forall (fun c => (c =? LBRACE)%N = false) s)
    by (intros s Hs; apply (Forall_plain _ s); trivial; intros c Hc;
        now apply isPlain_spec in Hc).
  assert (NoParen : forall s, Forall (fun c => isPlain c = true) s ->
            Forall (fun c => (c =? LPAREN)%N = false /\ (c =? FW_LPAREN)%N = false) s)
    by (intros s Hs; apply (Forall_plain _ s); trivial; intros c Hc;
        apply isPlain_spec in Hc; tauto).
  assert (Body : forall x, In x [RBRACE; RPAREN; FW_RPAREN] ->
            Forall (fun c => (c =? x)%N = false /\ isLineTerminator c = false) body).
  { intros x Hx. apply (Forall_plain _ body); trivial. intros c Hc.
    apply isPlain_spec in Hc.
    destruct Hx as [<- | [<- | [<- | []]]]; tauto. }
  destruct Hp as [E | [E | [E | []]]]; inversion E; subst o cl.
  - rewrite brace_pass_strips; [| now apply NoBrace | apply Body; now left].
    rewrite (brace_pass_id b) by now apply NoBrace.
    rewrite paren_pass_id; [now rewrite length_app |].
    apply Forall_app. split; now apply NoParen.
  - rewrite brace_pass_id.
    2:{ apply Forall_app. split; [now apply NoBrace |]. constructor; [reflexivity |].
        apply Forall_app. split; [now apply NoBrace |]. constructor; [reflexivity |].
        now apply NoBrace. }
    rewrite (paren_pass_strips LPAREN RPAREN);
      [| now left | now apply NoParen | apply Body; right; now left].
    rewrite paren_pass_id by now apply NoParen. now rewrite length_app.
  - rewrite brace_pass_id.
    2:{ apply Forall_app. split; [now apply NoBrace |]. constructor; [reflexivity |].
        apply Forall_app. split; [now apply NoBrace |]. constructor; [reflexivity |].
        now apply NoBrace. }
    rewrite (paren_pass_strips FW_LPAREN FW_RPAREN);
      [| now right | now apply NoParen | apply Body; right; right; now left].
    rewrite paren_pass_id by now apply NoParen. now rewrite length_app.
Qed.

Lemma X3_annotation_adds_nothing_witness :
  getVisibleCharCount (js "Oh" ++ LPAREN :: js "laughs" ++ RPAREN :: js "no") = 2 + 2.
Proof.
  apply (X3_annotation_adds_nothing LPAREN RPAREN (js "Oh") (js "laughs") (js "no"));
    [right; left; reflexivity | | |]; repeat constructor.
Defined.

(* ================================================================== *)
(** * 22. Blank lines and cleared captions *)
(* ================================================================== *)

Lemma trim_blank (text : jsstring) :
  Forall (fun c => isWhiteSpace c = true) text -> trim text = [].
Proof.
  intros H. unfold trim, trimStart, trimEnd.
  assert (E : dropWhile isWhiteSpace text = []).
  { induction H as [| c r Hc _ IH]; [reflexivity |]. cbn. now rewrite Hc. }
  now rewrite E.
Qed.

Lemma armedBy_no_pause (w : World) (text : jsstring) :
  passesGate w text = false -> armedBy (handleSubtitle text) w = [].
Proof.
  intros G. apply armedBy_same.
  destruct (handleSubtitle_no_pause w text G) as [-> | ->]; reflexivity.
Qed.

(** X5.  A non-empty line of whitespace only never pauses and arms nothing
    (with [min_chars] above zero), but it gets past the first test of the
    handler and empties [lastSubText]; hence any later line with enough
    visible characters pauses, even the line shown just before the blank. *)
Theorem X5_blank_line_resets_buffer (w : World) (text : jsstring) :
  enabled (state w) = true -> text <> [] ->
  Forall (fun c => isWhiteSpace c = true) text ->
  0 < min_chars (settings w) ->
  pausesOf (handleSubtitle text) w = 0
  /\ armedBy (handleSubtitle text) w = []
  /\ lastSubText (state (exec (handleSubtitle text) w)) = []
  /\ (forall later : jsstring,
        min_chars (settings w) <= Spec.chars later ->
        pausesOf (handleSubtitle later) (exec (handleSubtitle text) w) = 1).
Proof.
  intros He Ht Hb Hm.
  assert (T : trim text = []) by now apply trim_blank.
  assert (G : passesGate w text = false).
  { destruct (passesGate w text) eqn:G; [| reflexivity].
    apply passesGate_true in G as (_ & _ & _ & G).
    rewrite <- visible_count_trim, T in G.
    change (getVisibleCharCount []) with 0 in G. lia. }
  assert (L : lastSubText (state (exec (handleSubtitle text) w)) = [])
    by now rewrite lastSubText_after.
  split; [now rewrite handleSubtitle_pauses_gate, G |].
  split; [now apply armedBy_no_pause |].
  split; [exact L |].
  intros later Hl. rewrite handleSubtitle_pauses_gate.
  assert (G' : passesGate (exec (handleSubtitle text) w) later = true);
    [| now rewrite G'].
  assert (S : settings (exec (handleSubtitle text) w) = settings w
              /\ enabled (state (exec (handleSubtitle text) w)) = enabled (state w))
    by (destruct (handleSubtitle_no_pause w text G) as [-> | ->]; split; reflexivity).
  destruct S as [S1 S2].
  apply passesGate_true. rewrite S1, S2, L.
  repeat split; trivial.
  - intros ->. change (Spec.chars []) with 0 in Hl. lia.
  - intros E. rewrite <- visible_count_trim, E in Hl.
    change (getVisibleCharCount []) with 0 in Hl. lia.
Qed.

Lemma X5_blank_line_resets_buffer_witness :
  lastSubText (state (exec (handleSubtitle (js "  ")) pausedOnce)) = [].
Proof.
  refine (proj1 (proj2 (proj2
            (X5_blank_line_resets_buffer pausedOnce (js "  ") _ _ _ _))));
    [reflexivity | discriminate | | vm_compute; lia].
  constructor; [reflexivity |]. constructor; [reflexivity |]. constructor.
Defined.

Lemma replace_ws_join (segments : list jsstring) :
  replace_class isWhiteSpace (js_join [32%N] segments)
  = replace_class isWhiteSpace (List.concat segments).
Proof.
  unfold replace_class.
  induction segments as [| x rest IH]; [reflexivity |].
  destruct rest as [| y rest'].
  - cbn [js_join List.concat]. now rewrite app_nil_r.
  - change (js_join [32%N] (x :: y :: rest'))
      with (x ++ [32%N] ++ js_join [32%N] (y :: rest')).
    cbn [List.concat]. rewrite !filter_app. f_equal.
    etransitivity; [exact IH |]. cbn [List.concat]. now rewrite filter_app.
Qed.

(** X4.  On YouTube the spaces that join the caption segments are not
    counted: the text read has the visible length of the segments put end to
    end. *)
Theorem X4_youtube_join_spaces_uncounted (segments : list jsstring) :
  getVisibleCharCount (youtube_getText segments)
  = getVisibleCharCount (List.concat segments).
Proof.
  rewrite !visible_count_spec. unfold Spec.chars, Spec.stripped.
  destruct segments as [| x rest]; [reflexivity |].
  unfold youtube_getText. now rewrite replace_ws_join.
Qed.

Lemma onMutations_empty (w : World) :
  exec (onMutations (DomText [])) w = w.
Proof.
  unfold onMutations, exec, bind, gets, ret. cbn.
  now destruct (negb (enabled (state w)) || _).
Qed.

Lemma onMutations_throws (w : World) :
  exec (onMutations DomThrows) w = w.
Proof.
  unfold onMutations, exec, bind, gets, ret. cbn.
  now destruct (negb (enabled (state w)) || _).
Qed.

Lemma onMutations_repeat (w : World) (text : jsstring) :
  exec (onMutations (DomText text)) (exec (onMutations (DomText text)) w)
  = exec (onMutations (DomText text)) w.
Proof.
  assert (Step : forall v, exec (onMutations (DomText text)) v = v
                           \/ exec (onMutations (DomText text)) v
                              = exec (handleSubtitle text) v).
  { intros v. destruct (video_paused v) eqn:Hv.
    - destruct (isAutoPaused (state v)) eqn:Ha.
      + right. apply onMutations_forwards. now right.
      + left. now apply onMutations_user_paused.
    - right. apply onMutations_forwards. now left. }
  destruct (Step w) as [E | E]; rewrite E; [exact E |].
  destruct (Step (exec (handleSubtitle text) w)) as [E' | E']; rewrite E';
    [reflexivity | apply handleSubtitle_repeat].
Qed.

(** X6.  An empty read (no caption segment on YouTube, no text element on
    Netflix) or a read that throws does not touch [lastSubText]: when the
    same line is read again after it, the three batches leave the world the
    first one left, so the line is not paused a second time. *)
Theorem X6_repeat_after_captions_clear (w : World) (text : jsstring) :
  run [EvMutations (DomText text);
       EvMutations (DomText (youtube_getText []));
       EvMutations (DomText text)] w
  = run [EvMutations (DomText text)] w
  /\ run [EvMutations (DomText text);
          EvMutations (DomText (netflix_getText None None));
          EvMutations (DomText text)] w
     = run [EvMutations (DomText text)] w
  /\ run [EvMutations (DomText text); EvMutations DomThrows;
          EvMutations (DomText text)] w
     = run [EvMutations (DomText text)] w.
Proof.
  cbn [run step youtube_getText netflix_getText].
  rewrite onMutations_empty, onMutations_throws, onMutations_repeat.
  repeat split.
Qed.

(* ================================================================== *)
(** * 23. Bounds on the pause *)
(* ================================================================== *)

Section FloatOrder.

Lemma SFcompare_swap (a b : spec_float) (c : comparison) :
  SFcompare a b = Some c -> SFcompare b a = Some (CompOpp c).
Proof.
  destruct a as [s1 | s1 | | s1 m1 e1], b as [s2 | s2 | | s2 m2 e2]; cbn;
    try discriminate;
    try (intros H; injection H as <-; reflexivity);
    try (destruct s1; intros H; injection H as <-; reflexivity);
    try (destruct s2; intros H; injection H as <-; reflexivity);
    try (destruct s1, s2; intros H; injection H as <-; reflexivity).
  assert (A : Pos.compare_cont Eq m2 m1 = CompOpp (Pos.compare_cont Eq m1 m2))
    by (symmetry; apply (Pos.compare_cont_antisym m1 m2 Eq)).
  rewrite (Z.compare_antisym e1 e2), A.
  intros H; injection H as <-.
  destruct s1, s2; try reflexivity;
    destruct (e1 ?= e2)%Z; cbn; try reflexivity;
    destruct (Pos.compare_cont Eq m1 m2); reflexivity.
Qed.

Lemma is_nan_false (x : float) :
  PrimFloat.is_nan x = false <-> Prim2SF x <> S754_nan.
Proof.
  unfold PrimFloat.is_nan. rewrite FloatAxioms.eqb_spec. unfold SFeqb. split.
  - intros H E. rewrite E in H. discriminate.
  - intros H. now rewrite (SFcompare_refl _ H).
Qed.

Lemma compare_defined (x y : float) :
  PrimFloat.is_nan x = false -> PrimFloat.is_nan y = false ->
  exists c, SFcompare (Prim2SF x) (Prim2SF y) = Some c.
Proof.
  intros Hx Hy. apply is_nan_false in Hx, Hy.
  destruct (Prim2SF x) as [s1 | s1 | | s1 m1 e1], (Prim2SF y) as [s2 | s2 | | s2 m2 e2];
    try congruence; cbn; eauto.
Qed.

Lemma leb_refl (x : float) : PrimFloat.is_nan x = false -> (x <=? x)%float = true.
Proof.
  intros H. apply is_nan_false in H.
  rewrite FloatAxioms.leb_spec. unfold SFleb. now rewrite SFcompare_refl.
Qed.

(** For numbers that are not NaN, [Math.min] is one of its arguments and is
    below both. *)
Lemma Math_min_spec (a b : float) :
  PrimFloat.is_nan a = false -> PrimFloat.is_nan b = false ->
  (Math_min a b = a \/ Math_min a b = b)
  /\ (Math_min a b <=? a)%float = true /\ (Math_min a b <=? b)%float = true.
Proof.
  intros Ha Hb. destruct (compare_defined a b Ha Hb) as [c C].
  pose proof (SFcompare_swap _ _ _ C) as C'.
  unfold Math_min. rewrite Ha, Hb. cbn [orb].
  rewrite !FloatAxioms.ltb_spec. unfold SFltb. rewrite C, C'.
  destruct c; cbn [CompOpp].
  - destruct (is_neg_zero a).
    + split; [now left |]. split; [now apply leb_refl |].
      rewrite FloatAxioms.leb_spec. unfold SFleb. now rewrite C.
    + split; [now right |]. split; [| now apply leb_refl].
      rewrite FloatAxioms.leb_spec. unfold SFleb. now rewrite C'.
  - split; [now left |]. split; [now apply leb_refl |].
    rewrite FloatAxioms.leb_spec. unfold SFleb. now rewrite C.
  - split; [now right |]. split; [| now apply leb_refl].
    rewrite FloatAxioms.leb_spec. unfold SFleb. now rewrite C'.
Qed.

(** For numbers that are not NaN, [Math.max] is one of its arguments and is
    above both. *)
Lemma Math_max_spec (a b : float) :
  PrimFloat.is_nan a = false -> PrimFloat.is_nan b = false ->
  (Math_max a b = a \/ Math_max a b = b)
  /\ (a <=? Math_max a b)%float = true /\ (b <=? Math_max a b)%float = true.
Proof.
  intros Ha Hb. destruct (compare_defined a b Ha Hb) as [c C].
  pose proof (SFcompare_swap _ _ _ C) as C'.
  unfold Math_max. rewrite Ha, Hb. cbn [orb].
  rewrite !FloatAxioms.ltb_spec. unfold SFltb. rewrite C, C'.
  destruct c; cbn [CompOpp].
  - destruct (is_neg_zero a).
    + split; [now right |]. split; [| now apply leb_refl].
      rewrite FloatAxioms.leb_spec. unfold SFleb. now rewrite C.
    + split; [now left |]. split; [now apply leb_refl |].
      rewrite FloatAxioms.leb_spec. unfold SFleb. now rewrite C'.
  - split; [now right |]. split; [| now apply leb_refl].
    rewrite FloatAxioms.leb_spec. unfold SFleb. now rewrite C.
  - split; [now left |]. split; [now apply leb_refl |].
    rewrite FloatAxioms.leb_spec. unfold SFleb. now rewrite C'.
Qed.

Lemma is_nan_true (x : float) : PrimFloat.is_nan x = true -> x = nan.
Proof.
  intros H. rewrite <- (SF2Prim_Prim2SF x).
  destruct (Prim2SF x) eqn:E; try reflexivity; exfalso;
    assert (N : PrimFloat.is_nan x = false)
      by (apply is_nan_false; rewrite E; discriminate);
    congruence.
Qed.

Lemma mul_nan_r (x : float) : (x * nan)%float = nan.
Proof.
  rewrite <- (SF2Prim_Prim2SF (x * nan)), FloatAxioms.mul_spec.
  change (Prim2SF nan) with S754_nan.
  now destruct (Prim2SF x).
Qed.

End FloatOrder.

(** X7.  When neither bound nor the product [chars * pause_per_char] is
    NaN, the pause scheduled never exceeds [max_pause], whether or not
    [min_pause] is below it; and it is at least [min_pause] when
    [min_pause <= max_pause]. *)
Theorem X7_pause_within_bounds (w : World) (text : jsstring) :
  Spec.triggersPause (handleSubtitle text) w ->
  PrimFloat.is_nan (min_pause (settings w)) = false ->
  PrimFloat.is_nan (max_pause (settings w)) = false ->
  PrimFloat.is_nan (lineProduct w text) = false ->
  exists d : float,
    scheduledDelay (handleSubtitle text) w = Some (d * 1000)%float
    /\ (d <=? max_pause (settings w))%float = true
    /\ ((min_pause (settings w) <=? max_pause (settings w))%float = true ->
        (min_pause (settings w) <=? d)%float = true).
Proof.
  intros T Hmin Hmax Hx. apply triggersPause_gate in T.
  rewrite handleSubtitle_scheduled, T. unfold Spec.duration. fold (lineProduct w text).
  destruct (Math_max_spec _ _ Hmin Hx) as (Dm & L1 & _).
  set (m := Math_max (min_pause (settings w)) (lineProduct w text)) in *.
  assert (Nm : PrimFloat.is_nan m = false) by (destruct Dm as [-> | ->]; assumption).
  destruct (Math_min_spec _ _ Hmax Nm) as (Dd & L2 & _).
  eexists. split; [reflexivity |]. split; [exact L2 |].
  intros Hle. destruct Dd as [-> | ->]; assumption.
Qed.

Lemma X7_pause_within_bounds_witness :
  exists d : float,
    scheduledDelay (handleSubtitle longLine) readyWorld = Some (d * 1000)%float
    /\ (d <=? max_pause (settings readyWorld))%float = true
    /\ ((min_pause (settings readyWorld) <=? max_pause (settings readyWorld))%float = true ->
        (min_pause (settings readyWorld) <=? d)%float = true).
Proof.
  apply (X7_pause_within_bounds readyWorld longLine);
    [vm_compute; discriminate | reflexivity | reflexivity | vm_compute; reflexivity].
Defined.

(* ================================================================== *)
(** * 24. Invariants of a session *)
(* ================================================================== *)

Ltac split_ifs :=
  repeat match goal with
  | |- context [if ?c then _ else _] =>
      lazymatch c with
      | true => fail | false => fail
      | _ => destruct c eqn:?
      end; cbn
  | |- context [match ?c with Some _ => _ | None => _ end] =>
      lazymatch c with
      | Some _ => fail | None => fail
      | _ => destruct c eqn:?
      end; cbn
  | |- context [match ?c with ResumeTimer => _ | OsdHideTimer => _ | MouseThrottle => _ end] =>
      destruct c eqn:?; cbn
  | |- context [match ?c with Youtube => _ | Netflix => _ end] =>
      destruct c eqn:?; cbn
  | |- context [match ?c with Fulfilled => _ | Rejected => _ end] =>
      destruct c eqn:?; cbn
  end.

Lemma flagsInv_handleSubtitle (w : World) (text : jsstring) :
  flagsInv w -> flagsInv (exec (handleSubtitle text) w).
Proof.
  intros I. destruct (passesGate w text) eqn:G.
  - rewrite handleSubtitle_pause by exact G.
    destruct I as (I1 & I2 & I3 & I4 & I5). unfold flagsInv, pausedWorld. cbn.
    repeat split; trivial.
    + destruct (currentPlatform w); [exact I4 | reflexivity].
    + intros Y. rewrite Y. now apply I5.
  - destruct (handleSubtitle_no_pause w text G) as [-> | ->]; exact I.
Qed.

Lemma flagsInv_step (ev : Event) (w : World) :
  flagsInv w -> flagsInv (exec (step ev) w).
Proof.
  intros I. destruct ev as [items | items | dom | e o | | id o | p]; cbn [step].
  all: try (destruct dom as [text |];
            [ destruct (video_paused w) eqn:Hv; [destruct (isAutoPaused (state w)) eqn:Ha |];
              [ rewrite onMutations_forwards by (now right);
                now apply flagsInv_handleSubtitle
              | now rewrite onMutations_user_paused
              | rewrite onMutations_forwards by (now left);
                now apply flagsInv_handleSubtitle ]
            | now rewrite onMutations_throws ]).
  all: destruct I as (I1 & I2 & I3 & I4 & I5); unfold flagsInv in *;
    destruct_world w; cbn in *;
    unfold startObserver_load, onUpdateSettings, loadSettings, fireTimer; unfold_m; cbn.
  all: split_ifs; cbn; repeat split; intros; subst; cbn in *.
  all: repeat match goal with
       | H : _ && _ = true |- _ => apply andb_true_iff in H as [? ?]
       | H : ?x = ?x -> _ |- _ => specialize (H eq_refl)
       end.
  all: solve [ congruence | apply I1; congruence | apply I2; congruence
             | symmetry; apply I5; congruence | apply I5; congruence | auto ].
Qed.

Section Owned.

Variable k : TimerKind.

Lemma ofKind_filter (f : Timer -> bool) (ts : list Timer) :
  ofKind k (filter f ts) = filter f (ofKind k ts).
Proof.
  unfold ofKind. induction ts as [| t r IH]; [reflexivity |].
  cbn [filter]. destruct (f t) eqn:F, (kind_eqb (kind t) k) eqn:K; cbn [filter];
    rewrite ?F, ?K, IH; reflexivity.
Qed.

Lemma owned_filter (f : Timer -> bool) (ts : list Timer) (h : option positive) :
  owned k ts h -> owned k (filter f ts) h.
Proof.
  intros [L O]. unfold owned. rewrite ofKind_filter. split.
  - etransitivity; [apply filter_length_le | exact L].
  - intros t I. apply filter_In in I as [I _]. now apply O.
Qed.

Lemma owned_app_other (ts : list Timer) (h : option positive) (t : Timer) :
  kind_eqb (kind t) k = false -> owned k ts h -> owned k (ts ++ [t]) h.
Proof.
  intros K [L O]. unfold owned, ofKind in *. rewrite filter_app. cbn [filter].
  rewrite K, app_nil_r. now split.
Qed.

Lemma owned_none_empty (ts : list Timer) :
  owned k ts None -> ofKind k ts = [].
Proof.
  intros [_ O]. destruct (ofKind k ts) as [| t r]; [reflexivity |].
  specialize (O t (or_introl eq_refl)). discriminate.
Qed.

Lemma owned_cleared (ts : list Timer) (id : positive) :
  owned k ts (Some id) ->
  ofKind k (filter (fun t => negb (Pos.eqb (tid t) id)) ts) = [].
Proof.
  intros [_ O]. rewrite ofKind_filter.
  destruct (filter _ (ofKind k ts)) as [| t r] eqn:E; [reflexivity | exfalso].
  assert (I : In t (filter (fun t => negb (Pos.eqb (tid t) id)) (ofKind k ts)))
    by (rewrite E; now left).
  apply filter_In in I as [I N]. specialize (O t I). injection O as ->.
  now rewrite Pos.eqb_refl in N.
Qed.

Lemma owned_empty (ts : list Timer) (h : option positive) :
  ofKind k ts = [] -> owned k ts h.
Proof. intros E. unfold owned. rewrite E. split; [cbn; lia | intros t []]. Qed.

Lemma ofKind_empty_filter (f : Timer -> bool) (ts : list Timer) :
  ofKind k ts = [] -> ofKind k (filter f ts) = [].
Proof. intros E. now rewrite ofKind_filter, E. Qed.

Lemma ofKind_empty_app_other (ts : list Timer) (t : Timer) :
  kind_eqb (kind t) k = false -> ofKind k ts = [] -> ofKind k (ts ++ [t]) = [].
Proof.
  intros K E. unfold ofKind in *. rewrite filter_app, E. cbn. now rewrite K.
Qed.

Lemma owned_arm (ts : list Timer) (t : Timer) :
  kind_eqb (kind t) k = true -> ofKind k ts = [] ->
  owned k (ts ++ [t]) (Some (tid t)).
Proof.
  intros K E. unfold owned, ofKind in *. rewrite filter_app, E. cbn [filter app].
  rewrite K. split; [cbn; lia |]. intros t' [<- | []]. reflexivity.
Qed.

Lemma owned_fired (ts : list Timer) (h : option positive) (id : positive) (t : Timer) :
  find (fun t => Pos.eqb (tid t) id) ts = Some t -> kind_eqb (kind t) k = true ->
  owned k ts h ->
  ofKind k (filter (fun t => negb (Pos.eqb (tid t) id)) ts) = [].
Proof.
  intros F K O. apply find_some in F as [I T]. apply Pos.eqb_eq in T.
  assert (Ik : In t (ofKind k ts)) by (apply filter_In; now split).
  pose proof (proj2 O t Ik) as Hh. subst h. rewrite T in O.
  now apply owned_cleared.
Qed.

End Owned.

Arguments owned : simpl never.
Arguments ofKind : simpl never.

Ltac own :=
  lazymatch goal with
  | |- owned _ (filter _ _) _ =>
      first [ apply owned_filter; own | apply owned_empty; emp ]
  | |- owned _ (_ ++ [_]) _ =>
      first [ apply owned_app_other; [reflexivity | own]
            | apply (owned_arm _ _ (mkTimer _ _ _)); [reflexivity | emp] ]
  | |- owned _ _ _ => first [ assumption | apply owned_empty; emp ]
  end
with emp :=
  lazymatch goal with
  | |- ofKind _ (filter _ _) = [] =>
      first [ apply owned_cleared; own
            | eapply owned_fired;
                [eassumption
                | match goal with H : kind _ = _ |- _ => rewrite H; reflexivity end
                | eassumption]
            | apply ofKind_empty_filter; emp ]
  | |- ofKind _ (_ ++ [_]) = [] =>
      apply ofKind_empty_app_other; [reflexivity | emp]
  | |- ofKind _ _ = [] => first [ apply owned_none_empty; assumption | assumption ]
  end.

Lemma timersInv_handleSubtitle (w : World) (text : jsstring) :
  timersInv w -> timersInv (exec (handleSubtitle text) w).
Proof.
  intros I. destruct (passesGate w text) eqn:G.
  - rewrite handleSubtitle_pause by exact G.
    destruct I as [I1 I2]. unfold timersInv, pausedWorld. cbn.
    split; (apply owned_app_other; [reflexivity | assumption]).
  - destruct (handleSubtitle_no_pause w text G) as [-> | ->]; exact I.
Qed.

Lemma timersInv_step (ev : Event) (w : World) :
  timersInv w -> timersInv (exec (step ev) w).
Proof.
  intros I. destruct ev as [items | items | dom | e o | | id o | p]; cbn [step].
  all: try (destruct dom as [text |];
            [ destruct (video_paused w) eqn:Hv; [destruct (isAutoPaused (state w)) eqn:Ha |];
              [ rewrite onMutations_forwards by (now right);
                now apply timersInv_handleSubtitle
              | now rewrite onMutations_user_paused
              | rewrite onMutations_forwards by (now left);
                now apply timersInv_handleSubtitle ]
            | now rewrite onMutations_throws ]).
  all: destruct I as (I1 & I2); unfold timersInv in *;
    destruct_world w; cbn in *;
    unfold startObserver_load, onUpdateSettings, loadSettings, fireTimer; unfold_m; cbn.
  all: split_ifs; cbn; split.
  all: solve [own].
Qed.

Lemma Forall_lt_weaken (ts : list Timer) (a b : positive) :
  (a <= b)%positive ->
  Forall (fun t => (tid t < a)%positive) ts -> Forall (fun t => (tid t < b)%positive) ts.
Proof.
  intros L H. eapply Forall_impl; [| exact H]. cbn. intros t Ht. lia.
Qed.

Lemma Forall_filter_keep {A} (P : A -> Prop) (f : A -> bool) (l : list A) :
  Forall P l -> Forall P (filter f l).
Proof.
  intros H. apply Forall_forall. intros x I. apply filter_In in I as [I _].
  revert x I. now apply Forall_forall.
Qed.

Ltac fresh_solve :=
  lazymatch goal with
  | |- Forall _ (filter _ _) => apply Forall_filter_keep; fresh_solve
  | |- Forall _ (_ ++ [_]) =>
      apply Forall_app; split; [fresh_solve | constructor; [cbn; lia | constructor]]
  | |- Forall _ _ =>
      first [ assumption
            | eapply Forall_lt_weaken; [| eassumption]; lia ]
  end.

Lemma freshInv_handleSubtitle (w : World) (text : jsstring) :
  freshInv w -> freshInv (exec (handleSubtitle text) w).
Proof.
  intros I. destruct (passesGate w text) eqn:G.
  - rewrite handleSubtitle_pause by exact G.
    unfold freshInv, pausedWorld in *. cbn. fresh_solve.
  - destruct (handleSubtitle_no_pause w text G) as [-> | ->]; exact I.
Qed.

Lemma freshInv_step (ev : Event) (w : World) :
  freshInv w -> freshInv (exec (step ev) w).
Proof.
  intros I. destruct ev as [items | items | dom | e o | | id o | p]; cbn [step].
  all: try (destruct dom as [text |];
            [ destruct (video_paused w) eqn:Hv; [destruct (isAutoPaused (state w)) eqn:Ha |];
              [ rewrite onMutations_forwards by (now right);
                now apply freshInv_handleSubtitle
              | now rewrite onMutations_user_paused
              | rewrite onMutations_forwards by (now left);
                now apply freshInv_handleSubtitle ]
            | now rewrite onMutations_throws ]).
  all: unfold freshInv in *;
    destruct_world w; cbn in *;
    unfold startObserver_load, onUpdateSettings, loadSettings, fireTimer; unfold_m; cbn.
  all: split_ifs; cbn.
  all: solve [fresh_solve].
Qed.

(** An invariant of the initial worlds that every event keeps holds in every
    reachable world. *)
Lemma reachable_ind (I : World -> Prop) :
  (forall p, I (initial_world p)) ->
  (forall ev w, I w -> I (exec (step ev) w)) ->
  forall w, reachable w -> I w.
Proof.
  intros Hinit Hstep w (p & evs & ->).
  generalize (initial_world p), (Hinit p). induction evs as [| ev rest IH]; intros v Hv.
  - exact Hv.
  - cbn [run]. apply IH. now apply Hstep.
Qed.

Lemma reachable_flags (w : World) : reachable w -> flagsInv w.
Proof.
  apply reachable_ind.
  - intros p. unfold flagsInv. cbn. repeat split; congruence.
  - intros ev v. apply flagsInv_step.
Qed.

Lemma reachable_timers (w : World) : reachable w -> timersInv w.
Proof.
  apply reachable_ind.
  - intros p. split; apply owned_empty; reflexivity.
  - intros ev v. apply timersInv_step.
Qed.

Lemma reachable_fresh (w : World) : reachable w -> freshInv w.
Proof.
  apply reachable_ind.
  - intros p. constructor.
  - intros ev v. apply freshInv_step.
Qed.

(* ================================================================== *)
(** * 25. What the listeners leave alone *)
(* ================================================================== *)

Ltac norm_logs :=
  rewrite <- ?app_assoc; rewrite ?skipn_length_app, ?skipn_all; cbn.

(** X13.  Only a mutation batch can pause the video or arm a resume timer:
    a settings load, a settings update, a key press, a mouse move, a timer
    coming due or the player changing its own state never calls
    [video.pause()] and never sets a resume timer. *)
Theorem X13_only_mutations_pause (ev : Event) (w : World) :
  (forall dom, ev <> EvMutations dom) ->
  pausesOf (step ev) w = 0 /\ armedBy (step ev) w = [].
Proof.
  intros N. destruct ev as [items | items | dom | e o | | id o | p]; cbn [step];
    [| | exfalso; now apply (N dom) | | | |].
  all: unfold pausesOf, effectsOf, armedBy;
    destruct_world w; cbn in *;
    unfold startObserver_load, onUpdateSettings, loadSettings, fireTimer; unfold_m; cbn.
  all: split_ifs; norm_logs; split; reflexivity.
Qed.

Lemma X13_only_mutations_pause_witness :
  pausesOf (step (EvKeydown altP Fulfilled)) pausedOnce = 0
  /\ armedBy (step (EvKeydown altP Fulfilled)) pausedOnce = [].
Proof.
  apply (X13_only_mutations_pause (EvKeydown altP Fulfilled) pausedOnce).
  intros dom. discriminate.
Defined.

(** X14.  The key listener swallows a key ([preventDefault] and
    [stopPropagation]) exactly when the key is not the toggle chord, the
    script is enabled, the key is an interaction key and the script holds
    the pause; every other key reaches the player. *)
Theorem X14_swallow_iff (w : World) (e : KeyEvent) (o : Promise) :
  In KeySwallowed (effectsOf (onKeydown e o) w)
  <-> matchesHotkey e (hotkey (settings w)) = false
      /\ enabled (state w) = true
      /\ isInteractionKey e = true
      /\ isAutoPaused (state w) = true.
Proof.
  unfold effectsOf. destruct_world w. unfold_m. cbn.
  split_ifs; norm_logs;
    repeat match goal with
    | H : negb _ = _ |- _ => rewrite ?negb_true_iff, ?negb_false_iff in H
    | H : _ && _ = true |- _ => apply andb_true_iff in H as [? ?]
    | H : _ && _ = false |- _ => apply andb_false_iff in H
    end; subst;
    (split; [ intros Hin; cbn in Hin;
              repeat (destruct Hin as [Hin | Hin]; try discriminate); try tauto;
              repeat split; congruence
            | intros (? & ? & ? & ?); subst; try discriminate; try congruence;
              try (now left); try (right; now left); intuition congruence ]).
Qed.

Ltac absurd_hyps :=
  try (exfalso;
       match goal with
       | H : _ && false = true |- _ => rewrite andb_false_r in H; discriminate
       | H : _ || true = false |- _ => rewrite orb_true_r in H; discriminate
       end).

(** X15.  The toggle chord pressed while no auto-pause is held flips
    [enabled] and shows the matching notice, and does nothing to playback:
    no [play()], no [pause()], no timer, [video.paused] as it was.  Switching
    off forces the subtitles visible; switching on hides them if
    [hide_subs] is set. *)
Theorem X15_toggle_while_idle (w : World) (e : KeyEvent) (o : Promise) :
  isAutoPaused (state w) = false ->
  matchesHotkey e (hotkey (settings w)) = true ->
  enabled (state (exec (onKeydown e o) w)) = negb (enabled (state w))
  /\ effectsOf (onKeydown e o) w
     = [Notify (if enabled (state w) then "Primed Listening: OFF"
                else "Primed Listening: ON")]
  /\ video_paused (exec (onKeydown e o) w) = video_paused w
  /\ armedBy (onKeydown e o) w = []
  /\ isAutoPaused (state (exec (onKeydown e o) w)) = false
  /\ timerId (state (exec (onKeydown e o) w)) = timerId (state w)
  /\ lastSubText (state (exec (onKeydown e o) w)) = lastSubText (state w)
  /\ subs (exec (onKeydown e o) w)
     = if enabled (state w) then PlShowSub
       else if hide_subs (settings w) then PlHiddenSub else subs w.
Proof.
  intros Ha Hh. unfold effectsOf, armedBy. destruct_world w. subst.
  unfold_m. cbn.
  split_ifs; try discriminate; absurd_hyps; norm_logs; repeat split; reflexivity.
Qed.

(** What a settings update writes. *)
Lemma onUpdateSettings_writes (w : World) (items : StoredItems) :
  state (exec (onUpdateSettings items) w) = state w
  /\ hotkey (settings (exec (onUpdateSettings items) w)) = i_hotkey items.
Proof.
  destruct_world w. unfold onUpdateSettings, loadSettings. unfold_m. cbn.
  split_ifs; split; reflexivity.
Qed.

(** X16.  A settings update from the popup replaces the settings (all but
    [min_chars]) and leaves the state, the pending timers, the video and the
    trace alone: it neither resumes nor cancels a pause in progress.  The
    subtitles end up hidden exactly when the script is enabled, [hide_subs]
    is set and no auto-pause is held, and forced visible otherwise. *)
Theorem X16_settings_reload (w : World) (items : StoredItems) :
  state (exec (onUpdateSettings items) w) = state w
  /\ timers (exec (onUpdateSettings items) w) = timers w
  /\ video_paused (exec (onUpdateSettings items) w) = video_paused w
  /\ trace (exec (onUpdateSettings items) w) = trace w
  /\ settings (exec (onUpdateSettings items) w)
     = mkSettings (i_pause_per_char items) (i_min_pause items) (i_max_pause items)
                  (min_chars (settings w)) (i_hide_subs items) (i_hotkey items)
  /\ subs (exec (onUpdateSettings items) w)
     = if enabled (state w) && i_hide_subs items && negb (isAutoPaused (state w))
       then PlHiddenSub else PlShowSub.
Proof.
  destruct_world w. unfold onUpdateSettings, loadSettings. unfold_m. cbn.
  split_ifs; absurd_hyps; repeat split; try reflexivity.
  all: destruct (i_hide_subs items);
    repeat match goal with b : bool |- _ => destruct b end; cbn in *; congruence.
Qed.

(** X17.  A mouse move while the script holds the pause changes nothing
    (the interface stays hidden); otherwise it restores the interface and
    arms the throttle, and a second move before the throttle timer fires is
    a no-op.  A mouse move has no effect on playback. *)
Theorem X17_mousemove_throttled (w : World) :
  (isAutoPaused (state w) = true -> exec onMousemove w = w)
  /\ exec onMousemove (exec onMousemove w) = exec onMousemove w
  /\ effectsOf onMousemove w = []
  /\ state (exec onMousemove w)
     = (if isAutoPaused (state w) then state w
        else match mouseTimer w with
             | Some _ => state w
             | None => state (exec restoreUI w)
             end).
Proof.
  unfold effectsOf. destruct_world w. unfold_m. cbn.
  split_ifs; norm_logs; repeat split; intros; try reflexivity; try discriminate.
Qed.

Lemma X15_toggle_while_idle_witness :
  enabled (state (exec (onKeydown altP Fulfilled) readyWorld)) = false
  /\ effectsOf (onKeydown altP Fulfilled) readyWorld = [Notify "Primed Listening: OFF"]
  /\ video_paused (exec (onKeydown altP Fulfilled) readyWorld) = false.
Proof.
  pose proof (X15_toggle_while_idle readyWorld altP Fulfilled eq_refl eq_refl)
    as (A & B & C & _).
  exact (conj A (conj B C)).
Defined.

(* ================================================================== *)
(** * 26. Pause and resume composed *)
(* ================================================================== *)

Lemma filter_fresh (ts : list Timer) (id : positive) :
  Forall (fun t => (tid t < id)%positive) ts ->
  filter (fun t => negb (Pos.eqb (tid t) id)) ts = ts.
Proof.
  induction 1 as [| t r Ht _ IH]; [reflexivity |].
  cbn [filter]. assert (E : Pos.eqb (tid t) id = false) by (apply Pos.eqb_neq; lia).
  rewrite E. cbn. now rewrite IH.
Qed.

Lemma find_fresh (ts : list Timer) (t : Timer) :
  Forall (fun x => (tid x < tid t)%positive) ts ->
  find (fun x => Pos.eqb (tid x) (tid t)) (ts ++ [t]) = Some t.
Proof.
  induction 1 as [| x r Hx _ IH]; cbn [app find].
  - now rewrite Pos.eqb_refl.
  - assert (E : Pos.eqb (tid x) (tid t) = false) by (apply Pos.eqb_neq; lia).
    now rewrite E.
Qed.

Lemma fireTimer_resume (v : World) (id : positive) (o : Promise) (t : Timer) :
  find (fun x => Pos.eqb (tid x) id) (timers v) = Some t -> kind t = ResumeTimer ->
  exec (fireTimer id o) v = exec (resumePlayback o) (exec (clearTimeout id) v).
Proof.
  intros F K. unfold fireTimer, exec, bind, gets. cbn [fst snd]. rewrite F, K.
  reflexivity.
Qed.

(** X18.  In a session, a pause followed by its own timer coming due ends
    Idle with the pending timers exactly as before the pause: the timer
    fired is the one the pause armed, the only effect of its callback is one
    [play()], the subtitles are hidden again if [hide_subs] is set, and
    [lastSubText] keeps the line. *)
Theorem X18_pause_then_timer (w : World) (text : jsstring) (o : Promise) :
  reachable w -> Spec.triggersPause (handleSubtitle text) w ->
  let w1 := exec (handleSubtitle text) w in
  let w2 := exec (fireTimer (next_timer w) o) w1 in
  Spec.Idle w2
  /\ timers w2 = timers w
  /\ effectsOf (fireTimer (next_timer w) o) w1 = [VideoPlay]
  /\ video_paused w2 = match o with Fulfilled => false | Rejected => true end
  /\ enabled (state w2) = true
  /\ lastSubText (state w2) = trim text
  /\ subs w2 = if hide_subs (settings w) then PlHiddenSub else subs w.
Proof.
  intros R T w1 w2. apply reachable_fresh in R. apply triggersPause_gate in T.
  pose proof (proj1 (passesGate_true w text) T) as (He & _).
  assert (E1 : w1 = pausedWorld w text
                 (Math_min (max_pause (settings w))
                    (Math_max (min_pause (settings w))
                       (of_length (getVisibleCharCount (trim text))
                        * pause_per_char (settings w)))))
    by now apply handleSubtitle_pause.
  set (d := Math_min _ _) in E1.
  set (t := mkTimer (next_timer w) ResumeTimer (d * 1000)).
  assert (F : find (fun x => Pos.eqb (tid x) (next_timer w)) (timers w1) = Some t)
    by (rewrite E1; exact (find_fresh (timers w) t R)).
  assert (E2 : w2 = exec (resumePlayback o) (exec (clearTimeout (next_timer w)) w1))
    by (apply (fireTimer_resume w1 _ o t F); reflexivity).
  assert (C : timers (exec (clearTimeout (next_timer w)) w1) = timers w).
  { rewrite E1. cbn. rewrite filter_app, (filter_fresh _ _ R). cbn.
    rewrite Pos.eqb_refl. cbn. apply app_nil_r. }
  unfold effectsOf. fold w2. rewrite E2, resumePlayback_world.
  unfold resumedWorld. cbn [timers state trace video_paused subs settings
                            timerId enabled lastSubText isAutoPaused isPauseLocked].
  rewrite C. rewrite E1. cbn.
  repeat split; trivial.
  - rewrite (filter_fresh _ _ R). reflexivity.
  - now rewrite skipn_length_app.
  - destruct (hide_subs (settings w)); reflexivity.
Qed.

Lemma readyWorld_reachable : reachable readyWorld.
Proof. exists Netflix, [EvSettingsLoaded kikuDefaults]. reflexivity. Qed.

Lemma pausedTwice_reachable : reachable pausedTwice.
Proof.
  exists Netflix,
    [EvSettingsLoaded kikuDefaults; EvMutations (DomText longLine);
     EvMutations (DomText otherLine)].
  vm_compute. reflexivity.
Qed.

Lemma X18_pause_then_timer_witness :
  Spec.Idle (exec (fireTimer (next_timer readyWorld) Fulfilled)
                  (exec (handleSubtitle longLine) readyWorld))
  /\ timers (exec (fireTimer (next_timer readyWorld) Fulfilled)
                  (exec (handleSubtitle longLine) readyWorld))
     = timers readyWorld.
Proof.
  assert (T : Spec.triggersPause (handleSubtitle longLine) readyWorld)
    by (vm_compute; discriminate).
  pose proof (X18_pause_then_timer readyWorld longLine Fulfilled readyWorld_reachable T)
    as (A & B & _).
  split; [exact A | exact B].
Defined.

Lemma fireTimer_without_resume (v : World) (id : positive) (o : Promise) :
  resumeTimers v = [] ->
  state (exec (fireTimer id o) v) = state v
  /\ trace (exec (fireTimer id o) v) = trace v
  /\ video_paused (exec (fireTimer id o) v) = video_paused v
  /\ resumeTimers (exec (fireTimer id o) v) = [].
Proof.
  intros E. unfold fireTimer, exec, bind, gets. cbn [fst snd].
  destruct (find _ (timers v)) as [t |] eqn:F; [| now repeat split].
  apply find_some in F as [I _].
  destruct (kind t) eqn:K.
  - exfalso. assert (J : In t (resumeTimers v))
      by (apply filter_In; split; [exact I | unfold is_resume; now rewrite K]).
    now rewrite E in J.
  - unfold_m. cbn. repeat split.
    unfold resumeTimers in *. cbn. 
    destruct (filter is_resume (filter _ (timers v))) as [| x r] eqn:Ex; [reflexivity |].
    assert (J : In x (filter is_resume (filter (fun t0 => negb (tid t0 =? id)%positive) (timers v))))
      by (rewrite Ex; now left).
    apply filter_In in J as [J Jr]. apply filter_In in J as [J _].
    assert (J' : In x (filter is_resume (timers v))) by (apply filter_In; now split).
    now rewrite E in J'.
  - unfold_m. cbn. repeat split.
    unfold resumeTimers in *. cbn.
    destruct (filter is_resume (filter _ (timers v))) as [| x r] eqn:Ex; [reflexivity |].
    assert (J : In x (filter is_resume (filter (fun t0 => negb (tid t0 =? id)%positive) (timers v))))
      by (rewrite Ex; now left).
    apply filter_In in J as [J Jr]. apply filter_In in J as [J _].
    assert (J' : In x (filter is_resume (timers v))) by (apply filter_In; now split).
    now rewrite E in J'.
Qed.

(** X19.  Once an auto-pause whose resume timer is the only one pending
    has been locked, no timer can end it: whatever handle comes due, the
    machine stays Locked, nothing is played and no resume timer is
    pending. *)
Theorem X19_locked_pause_timer_proof
    (w : World) (e : KeyEvent) (o : Promise) (id : positive) (o' : Promise) :
  Spec.AutoPaused w ->
  (forall t, In t (resumeTimers w) -> timerId (state w) = Some (tid t)) ->
  isInteractionKey e = true -> matchesHotkey e (hotkey (settings w)) = false ->
  let locked := exec (onKeydown e o) w in
  Spec.Locked (exec (fireTimer id o') locked)
  /\ effectsOf (fireTimer id o') locked = []
  /\ video_paused (exec (fireTimer id o') locked) = video_paused w
  /\ resumeTimers (exec (fireTimer id o') locked) = [].
Proof.
  intros (He & Ha & Hl) Hone Hi Hh locked.
  assert (E : locked = lockedWorld w) by now apply onKeydown_lock.
  assert (N : resumeTimers locked = []).
  { apply (no_resume_timer_left w _ Hone). rewrite E. cbn [timers lockedWorld].
    intros t I K. apply in_app_iff in I as [I | [<- | []]]; [| discriminate].
    now apply withoutHandle_incl in I. }
  destruct (fireTimer_without_resume locked id o' N) as (S & T & V & R).
  split; [unfold Spec.Locked; rewrite S, E; cbn; auto |].
  split; [apply effectsOf_same; exact T |].
  split; [rewrite V, E; reflexivity | exact R].
Qed.

Lemma X19_locked_pause_timer_proof_witness :
  Spec.Locked (exec (fireTimer 2 Fulfilled) (exec (onKeydown spaceKey Fulfilled) pausedOnce)).
Proof.
  refine (proj1 (X19_locked_pause_timer_proof pausedOnce spaceKey Fulfilled 2 Fulfilled
                   _ _ eq_refl eq_refl)).
  - repeat split.
  - vm_compute. intros t [<- | []]. reflexivity.
Defined.

(* ================================================================== *)
(** * 27. The recorded chord *)
(* ================================================================== *)

Lemma matchesHotkey_self (e : KeyEvent) :
  matchesHotkey e (mkHotkey (e_code e) (e_altKey e) (e_ctrlKey e)
                            (e_shiftKey e) (e_metaKey e)) = true.
Proof.
  unfold matchesHotkey. cbn. rewrite String.eqb_refl, !Bool.eqb_reflx. reflexivity.
Qed.

Lemma onKeydown_toggles (w : World) (e : KeyEvent) (o : Promise) :
  matchesHotkey e (hotkey (settings w)) = true ->
  enabled (state (exec (onKeydown e o) w)) = negb (enabled (state w)).
Proof.
  intros Hh. destruct_world w. unfold_m. cbn.
  split_ifs; try discriminate; reflexivity.
Qed.

Lemma cleanKey_letter (c : ascii) :
  removeFirst "Digit" (removeFirst "Key" (letterCode c)) = String c EmptyString.
Proof.
  destruct c as [b0 b1 b2 b3 b4 b5 b6 b7].
  destruct b0, b1, b2, b3, b4, b5, b6, b7; reflexivity.
Qed.

(** X20.  The popup's recorder ignores a bare modifier key.  Any other key
    press is recorded as a chord that the content script's listener
    recognises for that same key press, with the label shown in the field;
    once the content script has loaded the saved chord, pressing it flips
    [enabled]. *)
Theorem X20_recorded_chord (e : KeyEvent) (p : Popup) :
  (isModifierKey (e_key e) = true -> recordHotkey e p = p)
  /\ (isModifierKey (e_key e) = false ->
      matchesHotkey e (storedHotkey (currentHotkey (recordHotkey e p))) = true
      /\ hotkeyDisplay_value (recordHotkey e p)
         = r_display (currentHotkey (recordHotkey e p))
      /\ forall (w : World) (items : StoredItems) (o : Promise),
           i_hotkey items = storedHotkey (currentHotkey (recordHotkey e p)) ->
           enabled (state (run [EvUpdateSettings items; EvKeydown e o] w))
           = negb (enabled (state w))).
Proof.
  unfold recordHotkey. split; intros H; rewrite H; [reflexivity |].
  cbn [currentHotkey hotkeyDisplay_value r_display storedHotkey
       r_code r_altKey r_ctrlKey r_shiftKey r_metaKey].
  split; [apply matchesHotkey_self |]. split; [reflexivity |].
  intros w items o Hi. cbn [run step].
  destruct (onUpdateSettings_writes w items) as (S & Se).
  rewrite onKeydown_toggles; [now rewrite S |].
  rewrite Se, Hi. apply matchesHotkey_self.
Qed.

(* ================================================================== *)
(** * 28. Sessions, labels and the two scripts on YouTube *)
(* ================================================================== *)

(** X22.  On YouTube, where [toggleUI] does nothing, the current script and
    the earlier one leave the same world after a subtitle event whenever the
    uncapped pause is below [max_pause]. *)
Theorem X22_youtube_same_world (w : World) (text : jsstring) :
  currentPlatform w = Youtube ->
  (Math_max (min_pause (settings w)) (lineProduct w text) <? max_pause (settings w))%float
    = true ->
  exec (handleSubtitle text) w = exec (Legacy.handleSubtitle text) w.
Proof.
  intros Hp Hd. destruct (passesGate w text) eqn:G.
  - rewrite handleSubtitle_pause, legacy_pause by exact G.
    unfold lineProduct in Hd. rewrite <- visible_count_trim in Hd.
    rewrite (Math_min_below _ _ Hd).
    unfold pausedWorld, legacyPausedWorld. now rewrite Hp.
  - symmetry. now apply legacy_no_pause.
Qed.

Lemma X22_youtube_same_world_witness :
  exec (handleSubtitle longLine) youtubeReady
  = exec (Legacy.handleSubtitle longLine) youtubeReady.
Proof.
  apply (X22_youtube_same_world youtubeReady longLine); vm_compute; reflexivity.
Defined.

Lemma Math_max_nan_r (a : float) : Math_max a nan = nan.
Proof. unfold Math_max. change (PrimFloat.is_nan nan) with true. now rewrite orb_true_r. Qed.

Lemma Math_min_nan_r (a : float) : Math_min a nan = nan.
Proof. unfold Math_min. change (PrimFloat.is_nan nan) with true. now rewrite orb_true_r. Qed.

(** X8.  With [pause_per_char] NaN (what [parseFloat] gives the popup for
    an empty field), every pause is scheduled with a NaN delay. *)
Theorem X8_nan_rate (w : World) (text : jsstring) :
  Spec.triggersPause (handleSubtitle text) w ->
  PrimFloat.is_nan (pause_per_char (settings w)) = true ->
  scheduledDelay (handleSubtitle text) w = Some nan.
Proof.
  intros T N. apply triggersPause_gate in T. apply is_nan_true in N.
  rewrite handleSubtitle_scheduled, T. unfold Spec.duration.
  rewrite N, mul_nan_r, Math_max_nan_r, Math_min_nan_r. reflexivity.
Qed.

Lemma X8_nan_rate_witness :
  scheduledDelay (handleSubtitle longLine) nanRateSession = Some nan.
Proof.
  apply (X8_nan_rate nanRateSession longLine); [vm_compute; discriminate | reflexivity].
Defined.

(** X9.  In every reachable world a resume handle in [state.timerId]
    implies [isAutoPaused], and so does [isPauseLocked]. *)
Theorem X9_flags_consistent (w : World) :
  reachable w ->
  (timerId (state w) <> None -> isAutoPaused (state w) = true)
  /\ (isPauseLocked (state w) = true -> isAutoPaused (state w) = true).
Proof. intros R. destruct (reachable_flags w R) as (A & B & _). now split. Qed.

Lemma X9_flags_consistent_witness :
  (timerId (state pausedTwice) <> None -> isAutoPaused (state pausedTwice) = true)
  /\ (isPauseLocked (state pausedTwice) = true -> isAutoPaused (state pausedTwice) = true).
Proof. exact (X9_flags_consistent pausedTwice pausedTwice_reachable). Defined.

(** X10.  No handler writes [min_chars]: in every reachable world it is 2,
    so a line of fewer than two visible characters never pauses. *)
Theorem X10_min_chars_fixed (w : World) :
  reachable w ->
  min_chars (settings w) = 2
  /\ forall text, Spec.chars text < 2 -> pausesOf (handleSubtitle text) w = 0.
Proof.
  intros R. destruct (reachable_flags w R) as (_ & _ & M & _). split; [exact M |].
  intros text H. rewrite handleSubtitle_pauses_gate.
  destruct (passesGate w text) eqn:G; [| reflexivity].
  apply passesGate_true in G as (_ & _ & _ & G). lia.
Qed.

Lemma X10_min_chars_fixed_witness :
  min_chars (settings pausedTwice) = 2
  /\ forall text, Spec.chars text < 2 -> pausesOf (handleSubtitle text) pausedTwice = 0.
Proof. exact (X10_min_chars_fixed pausedTwice pausedTwice_reachable). Defined.



(** X12.  In every reachable world at most one notice-hiding timer and at
    most one mouse-throttle timer are pending, and each is the one its
    handle ([osd.hideTimer], [mouseTimer]) names: [showOSD] clears before it
    arms, and the mouse listener arms only when its handle is null. *)
Theorem X12_single_notifier_timer (w : World) :
  reachable w ->
  List.length (ofKind OsdHideTimer (timers w)) <= 1
  /\ List.length (ofKind MouseThrottle (timers w)) <= 1
  /\ (forall t, In t (ofKind OsdHideTimer (timers w)) -> osd_hideTimer w = Some (tid t))
  /\ (forall t, In t (ofKind MouseThrottle (timers w)) -> mouseTimer w = Some (tid t)).
Proof.
  intros R. destruct (reachable_timers w R) as ((A & B) & (C & D)). auto.
Qed.

Lemma X12_single_notifier_timer_witness :
  List.length (ofKind OsdHideTimer (timers pausedTwice)) <= 1
  /\ List.length (ofKind MouseThrottle (timers pausedTwice)) <= 1
  /\ (forall t, In t (ofKind OsdHideTimer (timers pausedTwice)) ->
        osd_hideTimer pausedTwice = Some (tid t))
  /\ (forall t, In t (ofKind MouseThrottle (timers pausedTwice)) ->
        mouseTimer pausedTwice = Some (tid t)).
Proof. exact (X12_single_notifier_timer pausedTwice pausedTwice_reachable). Defined.

(** X21.  For a letter key (code [Key] followed by the letter) the label the
    recorder shows is the modifiers held, in the order Ctrl, Alt, Shift,
    Cmd, then the bare letter, joined by [" + "]. *)
Theorem X21_chord_label_letter (e : KeyEvent) (c : ascii) :
  e_code e = letterCode c ->
  chordLabel e
  = String.concat " + "
      ((if e_ctrlKey e then ["Ctrl"] else []) ++ (if e_altKey e then ["Alt"] else [])
       ++ (if e_shiftKey e then ["Shift"] else []) ++ (if e_metaKey e then ["Cmd"] else [])
       ++ [String c EmptyString]).
Proof.
  intros H. unfold chordLabel. rewrite H, cleanKey_letter.
  now rewrite <- !app_assoc.
Qed.

Lemma X21_chord_label_letter_witness : chordLabel altP = "Alt + P".
Proof. exact (X21_chord_label_letter altP "P" eq_refl). Defined.
